(** * Interactive geo-mapping (React + Leaflet): marker store, CSV codec,
      category aggregation and project registry

    A shallow embedding of the data layer of the map component
    (src/unnamed/part_000) and of the dashboard
    (src/src/components/Dashboard.jsx).

    Conventions of the embedding.
    - A JavaScript string is a [string]: one [ascii] per UTF-16 code unit,
      so the strings of the model are those whose code units are below 256.
    - A JavaScript number is a binary64 [float] (the kernel's primitive
      floats, which are IEEE 754 binary64 like the numbers of the source):
      coordinates, clock readings and marker ids.  Row indices and counts
      are [nat], converted where the source adds or prints them.
    - [undefined] is [None]; an array is a [list]; an object used as a
      record is a [Record]; an object used as a dictionary is a [gmap], or
      an association list where the order of its keys is observed.
    - React state is passed explicitly: a handler takes the state its
      closure reads and returns the state it sets, with the text of the
      alert it raises, if any. *)

From Stdlib Require Import ZArith Floats String Ascii List Lia.
From stdpp Require Import base list strings gmap pretty.

#[local] Open Scope string_scope.
#[local] Open Scope list_scope.

(** ** Characters and strings of the JavaScript runtime *)

Module Chr.
Definition dquote : ascii := "034".
Definition comma : ascii := ",".
Definition LF : ascii := "010".
Definition CR : ascii := "013".
End Chr.

(** One-character string. *)
Definition str1 (c : ascii) : string := String c EmptyString.

(** WhiteSpace and LineTerminator code units below 256: TAB, LF, VT, FF,
    CR, SP and NBSP.  String.prototype.trim and the Number conversion strip
    exactly these. *)
Definition is_ws (c : ascii) : bool :=
  match c with
  | "009" | "010" | "011" | "012" | "013" | " " | "160" => true
  | _ => false
  end%char.

Fixpoint trimStart (s : string) : string :=
  match s with
  | EmptyString => EmptyString
  | String c s' => if is_ws c then trimStart s' else s
  end.

Fixpoint trimEnd (s : string) : string :=
  match s with
  | EmptyString => EmptyString
  | String c s' =>
      match trimEnd s' with
      | EmptyString => if is_ws c then EmptyString else str1 c
      | r => String c r
      end
  end.

(** [s.trim()] *)
Definition trim (s : string) : string := trimEnd (trimStart s).

(** [s.split(sep)] for a one-character separator: never the empty list. *)
Fixpoint split (sep : ascii) (s : string) : list string :=
  match s with
  | EmptyString => [EmptyString]
  | String c s' =>
      if Ascii.eqb c sep then EmptyString :: split sep s'
      else match split sep s' with
           | p :: ps => String c p :: ps
           | [] => [str1 c]
           end
  end.

(** [text.split(/\r?\n/)]: a line ends at LF, and a CR right before that LF
    belongs to the separator. *)
Fixpoint split_lines (s : string) : list string :=
  match s with
  | EmptyString => [EmptyString]
  | String c s' =>
      let keep :=
        match split_lines s' with
        | p :: ps => String c p :: ps
        | [] => [str1 c]
        end in
      if Ascii.eqb c Chr.LF then EmptyString :: split_lines s'
      else if Ascii.eqb c Chr.CR then
        match s' with
        | String c2 s'' =>
            if Ascii.eqb c2 Chr.LF then EmptyString :: split_lines s'' else keep
        | EmptyString => keep
        end
      else keep
  end.

(** [l.join(sep)] *)
Fixpoint join (sep : string) (l : list string) : string :=
  match l with
  | [] => ""
  | x :: rest =>
      match rest with
      | [] => x
      | _ :: _ => x +:+ sep +:+ join sep rest
      end
  end.

(** [s.replace(/c/g, by)] for a one-character pattern. *)
Fixpoint replaceAll (c : ascii) (by_ : string) (s : string) : string :=
  match s with
  | EmptyString => EmptyString
  | String a s' =>
      (if Ascii.eqb a c then by_ else str1 a) +:+ replaceAll c by_ s'
  end.

Fixpoint dropLastQuote (s : string) : string :=
  match s with
  | EmptyString => EmptyString
  | String c s' =>
      match s' with
      | EmptyString => if Ascii.eqb c Chr.dquote then EmptyString else s
      | String _ _ => String c (dropLastQuote s')
      end
  end.

(** [h.replace(re, empty)] where the global pattern [re] is: a double quote
    at the start, or a double quote at the end.  One leading and one trailing
    double quote are removed (two different characters: a lone quote is
    matched once). *)
Definition stripEdgeQuotes (s : string) : string :=
  dropLastQuote
    match s with
    | String c s' => if Ascii.eqb c Chr.dquote then s' else s
    | EmptyString => EmptyString
    end.

Definition lowerChar (c : ascii) : ascii :=
  let n := nat_of_ascii c in
  if (65 <=? n)%nat && (n <=? 90)%nat then ascii_of_nat (n + 32) else c.

Fixpoint lowerASCII (s : string) : string :=
  match s with
  | EmptyString => EmptyString
  | String c s' => String (lowerChar c) (lowerASCII s')
  end.

(** [/^(a1|a2|...)$/i.test(h)] for lower-case ASCII alternatives: without the
    u flag a code unit above 127 never matches an ASCII letter. *)
Definition test_ci (alts : list string) (h : string) : bool :=
  existsb (String.eqb (lowerASCII h)) alts.

(** [x || d] for a string or [undefined]: the empty string is falsy. *)
Definition orElse (x : option string) (d : string) : string :=
  match x with
  | Some s => if String.eqb s "" then d else s
  | None => d
  end.

(** [!x] for a string or [undefined]. *)
Definition falsy (x : option string) : bool :=
  match x with
  | Some s => String.eqb s ""
  | None => true
  end.

(** [l.findIndex(p)], with [None] for -1. *)
Fixpoint findIndex {A} (p : A → bool) (l : list A) : option nat :=
  match l with
  | [] => None
  | x :: l' => if p x then Some 0%nat else S <$> findIndex p l'
  end.

(** ** Numbers: conversions between strings and binary64 *)

Module JSNumber.
#[local] Open Scope Z_scope.

Definition isFinite (x : float) : bool :=
  negb (PrimFloat.is_nan x || PrimFloat.is_infinity x).

(** Value of a digit in a radix up to 16 (for the 0x, 0o and 0b literals). *)
Definition digitValIn (radix : Z) (c : ascii) : option Z :=
  let n := Z.of_nat (nat_of_ascii c) in
  let v :=
    if (48 <=? n) && (n <=? 57) then Some (n - 48)
    else if (97 <=? n) && (n <=? 102) then Some (n - 87)
    else if (65 <=? n) && (n <=? 70) then Some (n - 55)
    else None in
  match v with
  | Some d => if d <? radix then Some d else None
  | None => None
  end.

(** Reads the longest prefix of digits: its value continued from [acc],
    the number of digits read, and the rest. *)
Fixpoint readDigits (radix : Z) (acc : Z) (n : Z) (s : string) : Z * Z * string :=
  match s with
  | EmptyString => (acc, n, s)
  | String c s' =>
      match digitValIn radix c with
      | Some d => readDigits radix (radix * acc + d) (n + 1) s'
      | None => (acc, n, s)
      end
  end.

(** The binary64 nearest to [m * 10^e] (ties to even), [m] positive. *)
Definition roundDecimal (neg : bool) (m : positive) (e : Z) : spec_float :=
  let bits := Z.log2 (Zpos m) in
  if 0 <=? e then
    if 400 <? e then S754_infinity neg
    else binary_normalize prec emax
           ((if neg then Zneg m else Zpos m) * 10 ^ e) 0 neg
  else
    let k := - e in
    if bits + 1 - 3 * k <? -1100 then S754_zero neg
    else
      let D := 10 ^ k in
      let s := Z.max 0 (64 + Z.log2 D - bits) in
      let N := Zpos m * 2 ^ s in
      let q := N / D in
      let r := N mod D in
      let loc :=
        if r =? 0 then loc_Exact else loc_Inexact (Z.compare (2 * r) D) in
      binary_round_aux prec emax neg q (- s) loc.

Definition decimalToFloat (neg : bool) (m : Z) (e : Z) : float :=
  match m with
  | Zpos p => SF2Prim (roundDecimal neg p e)
  | _ => if neg then PrimFloat.neg_zero else PrimFloat.zero
  end.

(** ExponentPart, optional: [e] or [E], an optional sign, digits. *)
Definition readExponent (s : string) : option Z :=
  match s with
  | EmptyString => Some 0
  | String c s1 =>
      if Ascii.eqb c "e" || Ascii.eqb c "E" then
        let '(neg, s2) :=
          match s1 with
          | String "+" t => (false, t)
          | String "-" t => (true, t)
          | _ => (false, s1)
          end in
        match readDigits 10 0 0 s2 with
        | (v, n, EmptyString) =>
            if 0 <? n then Some (if neg then - v else v) else None
        | _ => None
        end
      else None
  end.

(** StrUnsignedDecimalLiteral *)
Definition readUnsignedDecimal (neg : bool) (s : string) : float :=
  if String.eqb s "Infinity" then (if neg then PrimFloat.neg_infinity else PrimFloat.infinity)
  else
    let '(ip, ni, s1) := readDigits 10 0 0 s in
    let '(m, nf, s2) :=
      match s1 with
      | String "." t => readDigits 10 ip 0 t
      | _ => (ip, 0, s1)
      end in
    if (ni + nf =? 0) then PrimFloat.nan
    else match readExponent s2 with
         | Some e => decimalToFloat neg m (e - nf)
         | None => PrimFloat.nan
         end.

Definition readRadix (radix : Z) (s : string) : float :=
  match readDigits radix 0 0 s with
  | (v, n, EmptyString) =>
      if 0 <? n then SF2Prim (binary_normalize prec emax v 0 false) else PrimFloat.nan
  | _ => PrimFloat.nan
  end.

(** [Number(s)] for a string: StringToNumber of ECMAScript. *)
Definition Number (s : string) : float :=
  match trim s with
  | EmptyString => PrimFloat.zero
  | String "+" t => readUnsignedDecimal false t
  | String "-" t => readUnsignedDecimal true t
  | String "0" (String c t) as u =>
      if Ascii.eqb c "x" || Ascii.eqb c "X" then readRadix 16 t
      else if Ascii.eqb c "o" || Ascii.eqb c "O" then readRadix 8 t
      else if Ascii.eqb c "b" || Ascii.eqb c "B" then readRadix 2 t
      else readUnsignedDecimal false u
  | u => readUnsignedDecimal false u
  end.

(** *** Number to string (Number::toString, radix 10) *)

Definition digitChar (d : Z) : ascii := ascii_of_nat (Z.to_nat (48 + d)).

Fixpoint digitsFuel (fuel : nat) (n : Z) (acc : string) : string :=
  match fuel with
  | O => acc
  | S f =>
      if n <? 10 then String (digitChar n) acc
      else digitsFuel f (n / 10) (String (digitChar (n mod 10)) acc)
  end.

(** Decimal digits of a natural number, most significant first. *)
Definition digits (n : Z) : string :=
  digitsFuel (S (Z.to_nat (Z.log2 n))) n "".

Fixpoint zeros (n : nat) : string :=
  match n with
  | O => ""
  | S n' => String "0" (zeros n')
  end.

(** [P / Q >= 10 ^ j], for positive [P] and [Q]. *)
Definition geP10 (P Q j : Z) : bool :=
  if 0 <=? j then Q * 10 ^ j <=? P else Q <=? P * 10 ^ (- j).

Fixpoint adjustUp (fuel : nat) (P Q n : Z) : Z :=
  match fuel with
  | O => n
  | S f => if geP10 P Q n then adjustUp f P Q (n + 1) else n
  end.

Fixpoint adjustDown (fuel : nat) (P Q n : Z) : Z :=
  match fuel with
  | O => n
  | S f => if geP10 P Q (n - 1) then n else adjustDown f P Q (n - 1)
  end.

(** The [n] with [10 ^ (n - 1) <= P / Q < 10 ^ n]. *)
Definition magnitude (P Q : Z) : Z :=
  let n0 := ((Z.log2 P - Z.log2 Q) * 30103) / 100000 in
  adjustDown 4 P Q (adjustUp 4 P Q n0).

(** The shortest digits [s] (with their exponent [n]) whose value
    [s * 10 ^ (n - k)], [k] the number of digits of [s], converts back to
    [x = P / Q]: for [k] = 1, 2, ... the integers on both sides of
    [x * 10 ^ (k - n)] are tried, and the closer one wins. *)
Fixpoint shortest (fuel : nat) (k : Z) (x : float) (P Q n : Z) : Z * Z :=
  let e := k - n in
  let num := if 0 <=? e then P * 10 ^ e else P in
  let den := if 0 <=? e then Q else Q * 10 ^ (- e) in
  let lo := num / den in
  let r := num mod den in
  let hi := lo + 1 in
  let okLo := PrimFloat.eqb (decimalToFloat false lo (n - k)) x in
  let okHi := PrimFloat.eqb (decimalToFloat false hi (n - k)) x in
  let pickHi := if hi =? 10 ^ k then (10 ^ (k - 1), n + 1) else (hi, n) in
  let preferHi :=
    match 2 * r ?= den with
    | Lt => false
    | Gt => true
    | Eq => Z.odd lo
    end in
  if okLo && okHi then (if preferHi then pickHi else (lo, n))
  else if okLo then (lo, n)
  else if okHi then pickHi
  else match fuel with
       | O => (lo, n)
       | S f => shortest f (k + 1) x P Q n
       end.

Definition formatDigits (s n : Z) : string :=
  let ds := digits s in
  let k := Z.of_nat (String.length ds) in
  if (k <=? n) && (n <=? 21) then ds +:+ zeros (Z.to_nat (n - k))
  else if (0 <? n) && (n <=? 21) then
    String.substring 0 (Z.to_nat n) ds +:+ "." +:+
    String.substring (Z.to_nat n) (Z.to_nat (k - n)) ds
  else if (-6 <? n) && (n <=? 0) then "0." +:+ zeros (Z.to_nat (- n)) +:+ ds
  else
    let e := n - 1 in
    let es := (if e <? 0 then "-" else "+") +:+ digits (Z.abs e) in
    match ds with
    | EmptyString => EmptyString
    | String d EmptyString => str1 d +:+ "e" +:+ es
    | String d rest => str1 d +:+ "." +:+ rest +:+ "e" +:+ es
    end.

(** [String(x)], as [join] and template literals apply it to a number. *)
Definition toString (x : float) : string :=
  match Prim2SF x with
  | S754_nan => "NaN"
  | S754_zero _ => "0"
  | S754_infinity neg => if neg then "-Infinity" else "Infinity"
  | S754_finite neg m e =>
      let P := if 0 <=? e then Zpos m * 2 ^ e else Zpos m in
      let Q := if 0 <=? e then 1 else 2 ^ (- e) in
      let '(s, n) := shortest 16 1 (PrimFloat.abs x) P Q (magnitude P Q) in
      (if neg then "-" else "") +:+ formatDigits s n
  end.

Arguments Number : simpl never.
Arguments toString : simpl never.
End JSNumber.


(** [n] as a number, for an index or a count. *)
Definition numOfNat (n : nat) : float :=
  PrimFloat.of_uint63 (Uint63.of_Z (Z.of_nat n)).

(** ** Math

    ECMAScript leaves the results of Math.sin, Math.cos and Math.atan2 to
    the implementation (they are implementation-approximated), so the model
    takes them as a parameter.  Math.sqrt is the binary64 square root and
    Math.PI the binary64 nearest to pi. *)

Record MathLib := {
  Math_sin : float → float;
  Math_cos : float → float;
  Math_atan2 : float → float → float
}.

Definition Math_PI : float := 0x1.921fb54442d18p+1%float.
Definition Math_sqrt : float → float := PrimFloat.sqrt.

(** One implementation of the three functions, used to evaluate the model
    on concrete inputs: Taylor series for sine and cosine (arguments are
    within [-pi, pi] in this program), and for the arc tangent a series after
    two halvings of the argument. *)
Module RefMath.
#[local] Open Scope float_scope.

Fixpoint horner (k : nat) (odd : bool) (x2 acc : float) : float :=
  match k with
  | O => acc
  | S k' =>
      let n := numOfNat k in
      let d := if odd then (2 * n) * (2 * n + 1) else (2 * n - 1) * (2 * n) in
      horner k' odd x2 (1 - x2 / d * acc)
  end.

Definition sin (x : float) : float := x * horner 14 true (x * x) 1.
Definition cos (x : float) : float := horner 14 false (x * x) 1.

Fixpoint atanSeries (k : nat) (t2 acc : float) : float :=
  match k with
  | O => acc
  | S k' =>
      let n := numOfNat k in
      atanSeries k' t2 (1 / (2 * n - 1) - t2 * acc)
  end.

Definition halve (t : float) : float := t / (1 + PrimFloat.sqrt (1 + t * t)).

(** Arc tangent of [t], for [0 <= t]. *)
Definition atanPos (t : float) : float :=
  if 1 <? t then
    let u := halve (halve (1 / t)) in
    Math_PI / 2 - 4 * (u * atanSeries 14 (u * u) 0)
  else
    let u := halve (halve t) in
    4 * (u * atanSeries 14 (u * u) 0).

Definition atan (t : float) : float :=
  if t <? 0 then - atanPos (- t) else atanPos t.

Definition atan2 (y x : float) : float :=
  if 0 <? x then atan (y / x)
  else if x <? 0 then
    (if y <? 0 then atan (y / x) - Math_PI else atan (y / x) + Math_PI)
  else if 0 <? y then Math_PI / 2
  else if y <? 0 then - (Math_PI / 2)
  else y + x.

Definition lib : MathLib :=
  {| Math_sin := sin; Math_cos := cos; Math_atan2 := atan2 |}.
End RefMath.

(** ** Configuration and markers *)

Record categoryConfig := { key : string; color : string }.

Definition CATEGORIES : list categoryConfig :=
  [ {| key := "General"; color := "#3388ff" |};
    {| key := "Restaurant"; color := "#e74c3c" |};
    {| key := "College"; color := "#27ae60" |};
    {| key := "Event"; color := "#f1c40f" |};
    {| key := "Shop"; color := "#9b59b6" |} ].

(** A marker object.  [category] is [None] when the property is undefined,
    [image] is [None] for null. *)
Record marker := {
  id : float;
  position : float * float;
  title : string;
  description : string;
  category : option string;
  image : option string
}.

(** The alerts the handlers raise.  The fixed texts are, in this order:
    Invalid latitude/longitude. / Duplicate marker detected (marker not
    added). / A marker already exists near this location (duplicate
    prevented). / CSV must include Latitude and Longitude columns. / Cannot
    delete default map.  The import summary carries its computed text. *)
Inductive alert :=
  | AlertInvalidLatLng
  | AlertDuplicateNotAdded
  | AlertDuplicatePrevented
  | AlertMissingColumns
  | AlertCantDeleteDefault
  | AlertImport (msg : string).

(** [!isFinite(lat) || !isFinite(lng) || lat < -90 || lat > 90 ||
     lng < -180 || lng > 180] *)
Definition invalidLatLng (lat lng : float) : bool :=
  (negb (JSNumber.isFinite lat) || negb (JSNumber.isFinite lng)
   || (lat <? -90) || (90 <? lat) || (lng <? -180) || (180 <? lng))%float.

Section MarkerStore.
Variable M : MathLib.

Definition toRad (d : float) : float := ((d * Math_PI) / 180)%float.

(** The body of the loop of isDuplicate: the haversine distance in metres
    between [(lat, lng)] and [(lat2, lon2)]. *)
Definition distanceMeters (lat lng lat2 lon2 : float) : float :=
  let R := 6371e3%float in
  let phi1 := toRad lat in
  let phi2 := toRad lat2 in
  let dphi := toRad (lat2 - lat)%float in
  let dlam := toRad (lon2 - lng)%float in
  let a :=
    (Math_sin M (dphi / 2) * Math_sin M (dphi / 2) +
     Math_cos M phi1 * Math_cos M phi2 *
       Math_sin M (dlam / 2) * Math_sin M (dlam / 2))%float in
  let c := (2 * Math_atan2 M (Math_sqrt a) (Math_sqrt (1 - a)))%float in
  (R * c)%float.

(** [isDuplicate(lat, lng, thresholdMeters)] over the markers of the state. *)
Fixpoint isDuplicateWithin (thresholdMeters : float) (markers : list marker)
    (lat lng : float) : bool :=
  match markers with
  | [] => false
  | m :: rest =>
      let d := distanceMeters lat lng (fst (position m)) (snd (position m)) in
      if (d <=? thresholdMeters)%float then true
      else isDuplicateWithin thresholdMeters rest lat lng
  end.

(** Every call leaves the threshold to its default, 5 metres. *)
Definition isDuplicate (markers : list marker) (lat lng : float) : bool :=
  isDuplicateWithin 5%float markers lat lng.

(** [handleAddMarker(latlng)]: [now] is the value of Date.now(). *)
Definition handleAddMarker (now : float) (markers : list marker)
    (lat lng : float) : list marker * option alert :=
  if invalidLatLng lat lng then (markers, Some AlertInvalidLatLng)
  else if isDuplicate markers lat lng then (markers, Some AlertDuplicateNotAdded)
  else
    let newMarker :=
      {| id := now; position := (lat, lng); title := "New Marker";
         description := ""; category := Some "General"; image := None |} in
    ((markers ++ [newMarker])%list, None).

(** The click handler of AddMarker, whose onAdd is handleAddMarker.
    [inSearchBar]: the click landed inside the search bar container. *)
Definition AddMarker_click (inSearchBar : bool) (now : float)
    (markers : list marker) (lat lng : float) : list marker * option alert :=
  if inSearchBar then (markers, None)
  else if isDuplicate markers lat lng then (markers, Some AlertDuplicatePrevented)
  else handleAddMarker now markers lat lng.

End MarkerStore.

(** ** Objects and handleTextChange

    handleTextChange copies a marker with a computed property name, so it is
    modelled on objects as dictionaries.  An array or object stored in a
    property is a reference, compared by identity. *)

Inductive value :=
  | VUndefined
  | VNull
  | VBool (b : bool)
  | VNum (x : float)
  | VStr (s : string)
  | VRef (addr : positive).

(** [a === b] *)
Definition strictEq (a b : value) : bool :=
  match a, b with
  | VUndefined, VUndefined => true
  | VNull, VNull => true
  | VBool x, VBool y => Bool.eqb x y
  | VNum x, VNum y => PrimFloat.eqb x y
  | VStr x, VStr y => String.eqb x y
  | VRef x, VRef y => Pos.eqb x y
  | _, _ => false
  end.

(** [o[k]]: a missing property reads as undefined. *)
Definition getProp (o : gmap string value) (k : string) : value :=
  default VUndefined (o !! k).

(** [prev.map((m) => (m.id === id ? { ...m, [field]: value } : m))] *)
Definition handleTextChange (prev : list (gmap string value)) (id : value)
    (field : string) (v : value) : list (gmap string value) :=
  map (fun m => if strictEq (getProp m "id") id then <[field := v]> m else m)
      prev.

(** The object of a marker; [addr] is where its position array lives. *)
Definition markerObject (addr : positive) (m : marker) : gmap string value :=
  let o : gmap string value :=
    {[ "id" := VNum (id m); "position" := VRef addr;
       "title" := VStr (title m); "description" := VStr (description m);
       "image" := match image m with Some s => VStr s | None => VNull end ]} in
  match category m with
  | Some c => <["category" := VStr c]> o
  | None => o
  end.

(** ** CSV export *)

(** The template literal of markersToCSVString around a text field: the
    field between double quotes, its double quotes doubled. *)
Definition quoted (s : string) : string :=
  str1 Chr.dquote
  +:+ replaceAll Chr.dquote (String Chr.dquote (str1 Chr.dquote)) s
  +:+ str1 Chr.dquote.

Definition csvHeaders : list string :=
  ["Title"; "Description"; "Latitude"; "Longitude"; "Category"].

(** The array built for one marker, each element as join prints it. *)
Definition csvRow (m : marker) : list string :=
  [ quoted (orElse (Some (title m)) "");
    quoted (orElse (Some (description m)) "");
    JSNumber.toString (fst (position m));
    JSNumber.toString (snd (position m));
    orElse (category m) "" ].

Definition markersToCSVString (markersArr : list marker) : string :=
  let rows := map csvRow markersArr in
  join (str1 Chr.LF) (join "," csvHeaders :: map (join ",") rows).

(** ** CSV import *)

Record csv := { headers : list string; rows : list (list string) }.

(** The character loop of parseCSV over the rest [ln] of a line. *)
Fixpoint splitFields (cur : string) (inQuotes : bool) (values : list string)
    (ln : string) : list string :=
  match ln with
  | EmptyString => (values ++ [cur])%list
  | String ch rest =>
      if Ascii.eqb ch Chr.dquote then
        match rest with
        | String ch2 rest2 =>
            if Ascii.eqb ch2 Chr.dquote
            then splitFields (cur +:+ str1 Chr.dquote) inQuotes values rest2
            else splitFields cur (negb inQuotes) values rest
        | EmptyString => splitFields cur (negb inQuotes) values rest
        end
      else if Ascii.eqb ch Chr.comma && negb inQuotes
      then splitFields "" inQuotes (values ++ [cur])%list rest
      else splitFields (cur +:+ str1 ch) inQuotes values rest
  end.

Definition parseRow (ln : string) : list string :=
  map trim (splitFields "" false [] ln).

Definition parseCSV (text : string) : csv :=
  let lines :=
    List.filter (fun l => (0 <? String.length (trim l))%nat) (split_lines text) in
  match lines with
  | [] => {| headers := []; rows := [] |}
  | l0 :: rest =>
      {| headers := map (fun h => stripEdgeQuotes (trim h)) (split Chr.comma l0);
         rows := map parseRow rest |}
  end.

(** The column indices [idx] of onFileSelected, [None] for -1. *)
Module idx.
Record t := {
  title : option nat;
  desc : option nat;
  lat : option nat;
  lng : option nat;
  cat : option nat
}.
End idx.

Definition headerIndices (headers : list string) : idx.t :=
  {| idx.title := findIndex (test_ci ["title"]) headers;
     idx.desc := findIndex (test_ci ["description"; "desc"]) headers;
     idx.lat := findIndex (test_ci ["latitude"; "lat"]) headers;
     idx.lng := findIndex (test_ci ["longitude"; "lon"; "lng"; "long"]) headers;
     idx.cat := findIndex (test_ci ["category"; "cat"]) headers |}.

(** The three variables the row loop updates. *)
Record importAcc := {
  imported : nat;
  errors : list string;
  newMarkers : list marker
}.

Definition pushError (acc : importAcc) (msg : string) : importAcc :=
  {| imported := imported acc;
     errors := (errors acc ++ [msg])%list;
     newMarkers := newMarkers acc |}.

(** [Number(x)] and the text of [x] in a template, for a cell of a row. *)
Definition numberOfCell (x : option string) : float :=
  match x with
  | Some s => JSNumber.Number s
  | None => PrimFloat.nan
  end.

Definition textOfCell (x : option string) : string := default "undefined" x.

Definition rowLabel (i : nat) : string :=
  "Row " +:+ JSNumber.toString (numOfNat i + 2)%float.

Definition knownCategory (cat : string) : bool :=
  existsb (fun c => String.eqb (key c) cat) CATEGORIES.

Section ImportLoop.
Variable M : MathLib.
(** The markers of the state, as the closure of the handler reads them. *)
Variable markers : list marker.
(** [clock i]: the value of Date.now() while row [i] is processed. *)
Variable clock : nat → float.
Variable ix : idx.t.
(** The latitude and longitude columns, known to be present. *)
Variables latIx lngIx : nat.

(** The callback of [rows.forEach]. *)
Definition rowBody (acc : importAcc) (r : list string) (i : nat) : importAcc :=
  let title :=
    match idx.title ix with Some j => orElse (r !! j) "" | None => "" end in
  let desc :=
    match idx.desc ix with Some j => orElse (r !! j) "" | None => "" end in
  let latRaw := r !! latIx in
  let lngRaw := r !! lngIx in
  let cat :=
    match idx.cat ix with
    | Some j => orElse (r !! j) "General"
    | None => "General"
    end in
  if falsy latRaw || falsy lngRaw then
    pushError acc (rowLabel i +:+ ": missing coordinates")
  else
    let lat := numberOfCell latRaw in
    let lng := numberOfCell lngRaw in
    if invalidLatLng lat lng then
      pushError acc
        (rowLabel i +:+ ": invalid lat/lng (" +:+ textOfCell latRaw +:+ ", "
         +:+ textOfCell lngRaw +:+ ")")
    else if isDuplicate M markers lat lng then
      pushError acc (rowLabel i +:+ ": duplicate marker skipped")
    else
      let nm :=
        {| id := (clock i + numOfNat i)%float;
           position := (lat, lng);
           title := orElse (Some title) "Imported Marker";
           description := orElse (Some desc) "";
           category := Some (if knownCategory cat then cat else "General");
           image := None |} in
      {| imported := S (imported acc);
         errors := errors acc;
         newMarkers := (newMarkers acc ++ [nm])%list |}.

(** [rows.forEach((r, i) => ...)], from index [i] on. *)
Fixpoint forEachRow (i : nat) (rs : list (list string)) (acc : importAcc)
    : importAcc :=
  match rs with
  | [] => acc
  | r :: rest => forEachRow (S i) rest (rowBody acc r i)
  end.

End ImportLoop.

Definition emptyAcc : importAcc :=
  {| imported := 0; errors := []; newMarkers := [] |}.

(** The loop of onFileSelected over the parsed text; [None] when the
    latitude or longitude column is missing. *)
Definition importRows (M : MathLib) (markers : list marker) (clock : nat → float)
    (text : string) : option importAcc :=
  let c := parseCSV text in
  let ix := headerIndices (headers c) in
  match idx.lat ix, idx.lng ix with
  | Some la, Some ln =>
      Some (forEachRow M markers clock ix la ln 0 (rows c) emptyAcc)
  | _, _ => None
  end.

Definition importMessage (acc : importAcc) : string :=
  let msg :=
    "Import complete. " +:+ JSNumber.toString (numOfNat (imported acc))
    +:+ " markers added." in
  match errors acc with
  | [] => msg
  | _ :: _ =>
      msg +:+ str1 Chr.LF +:+ "Warnings:" +:+ str1 Chr.LF
      +:+ join (str1 Chr.LF) (take 20 (errors acc))
  end.

(** The onload callback of onFileSelected on the text of the file. *)
Definition onFileSelected (M : MathLib) (markers : list marker)
    (clock : nat → float) (text : string) : list marker * option alert :=
  match importRows M markers clock text with
  | None => (markers, Some AlertMissingColumns)
  | Some acc =>
      (match newMarkers acc with
       | [] => markers
       | _ :: _ => (markers ++ newMarkers acc)%list
       end,
       Some (AlertImport (importMessage acc)))
  end.

(** ** Sequences of interactions on the marker store *)

Inductive event :=
  | MapClick (lat lng : float) (now : float)
  | FileLoaded (text : string) (clock : nat → float).

Definition handle (M : MathLib) (markers : list marker) (ev : event)
    : list marker :=
  match ev with
  | MapClick lat lng now => fst (AddMarker_click M false now markers lat lng)
  | FileLoaded text clock => fst (onFileSelected M markers clock text)
  end.

Definition run (M : MathLib) (markers : list marker) (evs : list event)
    : list marker :=
  foldl (handle M) markers evs.

(** ** Category counts *)

(** The [counts] object of the Dashboard component.  A key that was never
    written reads as undefined: so the object behaves for every key that is
    not a property inherited from Object.prototype, the five categories
    among them. *)
Definition Dashboard_counts (markers : list marker) : gmap string nat :=
  foldl (fun counts m =>
           let cat := orElse (category m) "General" in
           <[cat := (default 0 (counts !! cat) + 1)%nat]> counts)
        ∅ markers.

(** [m.category === k] *)
Definition categoryIs (k : string) (m : marker) : bool :=
  match category m with
  | Some c => String.eqb c k
  | None => false
  end.

(** The [catCounts] object of exportPDF. *)
Definition catCounts (markers : list marker) : gmap string nat :=
  foldl (fun acc c =>
           <[key c := length (List.filter (categoryIs (key c)) markers)]> acc)
        ∅ CATEGORIES.

(** ** Project registry *)

(** A drawn shape: the GeoJSON feature of the drawing layer, as opaque text. *)
Inductive shape := GeoJSON (feature : string).

Module Project.
Record t := {
  name : string;
  markers : list marker;
  shapes : list shape
}.
End Project.

(** [savedMaps] lists its entries in the order Object.keys gives them:
    insertion order, the keys being [default] and the generated [map_...]
    names (none of them an array index). *)
Record appState := {
  savedMaps : list (string * Project.t);
  currentMap : string;
  markers : list marker;
  shapes : list shape;
  (** the value last written under the key [maps] of localStorage *)
  localStorage_maps : option (list (string * Project.t))
}.

(** [o[k]] *)
Fixpoint lookupKey {A} (k : string) (o : list (string * A)) : option A :=
  match o with
  | [] => None
  | (k', v) :: rest => if String.eqb k' k then Some v else lookupKey k rest
  end.

(** [delete o[k]] *)
Definition deleteKey {A} (k : string) (o : list (string * A)) : list (string * A) :=
  List.filter (fun e => negb (String.eqb (fst e) k)) o.

(** [Object.keys(o)[0] || d] *)
Definition firstKeyOr {A} (o : list (string * A)) (d : string) : string :=
  orElse (head (map fst o)) d.

(** [handleDeleteMap()]; [confirmed] is the answer to window.confirm. *)
Definition handleDeleteMap (confirmed : bool) (st : appState)
    : appState * option alert :=
  if String.eqb (currentMap st) "default" then (st, Some AlertCantDeleteDefault)
  else if negb confirmed then (st, None)
  else
    let updated := deleteKey (currentMap st) (savedMaps st) in
    let nextMap := firstKeyOr updated "default" in
    ({| savedMaps := updated;
        currentMap := nextMap;
        markers := default [] (Project.markers <$> lookupKey nextMap updated);
        shapes := default [] (Project.shapes <$> lookupKey nextMap updated);
        localStorage_maps := Some updated |}, None).

(** ** Vocabulary of the statements *)

(** What a marker keeps across an export and an import: all but its id (and
    its image, which the CSV does not carry). *)
Definition tupleOf (m : marker) : string * string * (float * float) * option string :=
  (title m, description m, position m, category m).

(** What one row adds to the errors and to the new markers of the loop. *)
Definition rowErrors (M : MathLib) (markers : list marker) (clock : nat → float)
    (ix : idx.t) (latIx lngIx i : nat) (r : list string) : list string :=
  errors (rowBody M markers clock ix latIx lngIx emptyAcc r i).

Definition rowMarkers (M : MathLib) (markers : list marker) (clock : nat → float)
    (ix : idx.t) (latIx lngIx i : nat) (r : list string) : list marker :=
  newMarkers (rowBody M markers clock ix latIx lngIx emptyAcc r i).

(** The latitude cell is missing or empty, or its number is not finite or
    lies outside [-90, 90]. *)
Definition badLatitude (latIx : nat) (r : list string) : bool :=
  let lat := numberOfCell (r !! latIx) in
  falsy (r !! latIx) || negb (JSNumber.isFinite lat)
  || (lat <? -90)%float || (90 <? lat)%float.

(** Both coordinates are present and valid, and the position is no
    duplicate of a marker of the state. *)
Definition acceptedRow (M : MathLib) (markers : list marker)
    (latIx lngIx : nat) (r : list string) : bool :=
  let lat := numberOfCell (r !! latIx) in
  let lng := numberOfCell (r !! lngIx) in
  negb (falsy (r !! latIx)) && negb (falsy (r !! lngIx))
  && negb (invalidLatLng lat lng) && negb (isDuplicate M markers lat lng).

(** The title cell of a row is empty or missing. *)
Definition noTitle (ix : idx.t) (r : list string) : bool :=
  match idx.title ix with
  | Some j => falsy (r !! j)
  | None => true
  end.

(** The description cell of a row, empty when it is missing. *)
Definition descCell (ix : idx.t) (r : list string) : string :=
  match idx.desc ix with
  | Some j => orElse (r !! j) ""
  | None => ""
  end.

Fixpoint hasNonQuote (s : string) : bool :=
  match s with
  | EmptyString => false
  | String c s' => negb (Ascii.eqb c Chr.dquote) || hasNonQuote s'
  end.

Fixpoint noLF (s : string) : bool :=
  match s with
  | EmptyString => true
  | String c s' => negb (Ascii.eqb c Chr.LF) && noLF s'
  end.

(** A text field that the export and the import carry unchanged: it has a
    character other than the double quote, it is on one line, and it has no
    white space at either end. *)
Definition stableText (s : string) : bool :=
  hasNonQuote s && noLF s && String.eqb (trim s) s.

(** A coordinate whose text denotes it again. *)
Definition stableNumber (x : float) : Prop :=
  JSNumber.Number (JSNumber.toString x) = x.

Definition stableMarker (m : marker) : Prop :=
  stableText (title m) = true ∧ stableText (description m) = true
  ∧ (∃ c, category m = Some c ∧ knownCategory c = true)
  ∧ invalidLatLng (fst (position m)) (snd (position m)) = false
  ∧ stableNumber (fst (position m)) ∧ stableNumber (snd (position m)).

(** Every category is unset or one of CATEGORIES. *)
Definition categoryOK (m : marker) : bool :=
  match category m with
  | Some c => knownCategory c
  | None => true
  end.

(** The number of markers counted under category [k] when an unset (or
    empty) category counts as General. *)
Definition countAs (k : string) (markers : list marker) : nat :=
  length (List.filter (fun m => String.eqb (orElse (category m) "General") k) markers).

Fixpoint allChars (p : ascii → bool) (s : string) : bool :=
  match s with
  | EmptyString => true
  | String c s' => p c && allChars p s'
  end.

(** A character that a cell carries without quotes: no white space, no
    double quote, no comma. *)
Definition plainChar (c : ascii) : bool :=
  negb (is_ws c || Ascii.eqb c Chr.dquote || Ascii.eqb c Chr.comma).

Fixpoint endsWithCR (s : string) : bool :=
  match s with
  | EmptyString => false
  | String c s' =>
      match s' with
      | EmptyString => Ascii.eqb c Chr.CR
      | String _ _ => endsWithCR s'
      end
  end.

Definition startsWithQuote (s : string) : bool :=
  match s with
  | String c _ => Ascii.eqb c Chr.dquote
  | EmptyString => false
  end.

(** The cells that the import reads back from the row of a marker. *)
Definition cellsOf (m : marker) : list string :=
  [ title m; description m;
    JSNumber.toString (fst (position m));
    JSNumber.toString (snd (position m));
    orElse (category m) "" ].

(** *** The export and the counts as the specification words them *)

(** toCSV of the specification: the header row, then one row per marker,
    each of the five fields between double quotes. *)
Definition toCSV_spec (markers : list marker) : string :=
  join (str1 Chr.LF)
    ("Title,Description,Latitude,Longitude,Category"
     :: map (fun m =>
               join ","
                 [ quoted (title m); quoted (description m);
                   quoted (JSNumber.toString (fst (position m)));
                   quoted (JSNumber.toString (snd (position m)));
                   quoted (orElse (category m) "") ])
            markers).

(** categoryCounts of the specification: a count for each category of the
    enumeration, an unset category counting as General. *)
Definition categoryCounts_spec (markers : list marker) : gmap string nat :=
  list_to_map (map (fun c => (key c, countAs (key c) markers)) CATEGORIES).

(** One row of the export, written out. *)
Definition rowText (m : marker) : string :=
  quoted (title m) +:+ "," +:+ quoted (description m) +:+ ","
  +:+ JSNumber.toString (fst (position m)) +:+ ","
  +:+ JSNumber.toString (snd (position m)) +:+ ","
  +:+ orElse (category m) "".

(** The export written out: the header, then a line feed and a row for each
    marker, in order. *)
Fixpoint rowsText (markers : list marker) : string :=
  match markers with
  | [] => ""
  | m :: rest => str1 Chr.LF +:+ rowText m +:+ rowsText rest
  end.

(** ** Sample data *)

Module Sample.
#[local] Open Scope float_scope.

(** The marker a click on the map at (1, 2) creates. *)
Definition clicked : marker :=
  {| id := 1700000000000; position := (1, 2); title := "New Marker";
     description := ""; category := Some "General"; image := None |}.

Definition cafe : marker :=
  {| id := 1700000000500; position := (12.5, 77.25); title := "Cafe, central";
     description := "Open late"; category := Some "Shop"; image := None |}.

(** A marker with double quotes in its title and a comma in its
    description, at the initial centre of the map. *)
Definition inn : marker :=
  {| id := 1700000000900;
     position := (JSNumber.Number "-1.2921", JSNumber.Number "36.8219");
     title := "The " +:+ str1 Chr.dquote +:+ "Old" +:+ str1 Chr.dquote +:+ " Inn";
     description := "rooms, meals"; category := Some "Restaurant";
     image := None |}.

Definition shopA : marker :=
  {| id := 1; position := (0, 0); title := "A"; description := "";
     category := Some "Shop"; image := None |}.
Definition shopB : marker :=
  {| id := 2; position := (10, 10); title := "B"; description := "";
     category := Some "Shop"; image := None |}.
Definition unset : marker :=
  {| id := 3; position := (20, 20); title := "C"; description := "";
     category := None; image := None |}.

Definition clock (i : nat) : float := 1700000000000.

(** The word old between double quotes. *)
Definition quotedWord : string :=
  str1 Chr.dquote +:+ "old" +:+ str1 Chr.dquote.

(** The counts the specification expects for [shopA; shopB; unset]. *)
Definition expectedCounts : gmap string nat :=
  {[ "Shop" := 2%nat; "General" := 1%nat; "Restaurant" := 0%nat;
     "College" := 0%nat; "Event" := 0%nat ]}.

(** A file of two rows at the same position. *)
Definition twoEqualRows : string :=
  "Latitude,Longitude" +:+ str1 Chr.LF +:+ "1,2" +:+ str1 Chr.LF +:+ "1,2".

(** A file of three rows far apart. *)
Definition threeRows : string :=
  "lat,lng" +:+ str1 Chr.LF +:+ "1,2" +:+ str1 Chr.LF +:+ "3,4"
  +:+ str1 Chr.LF +:+ "5,6".

(** A file whose second row has no valid latitude. *)
Definition oneBadRow : string :=
  "Title,Latitude,Longitude" +:+ str1 Chr.LF +:+ "P,1,2" +:+ str1 Chr.LF
  +:+ "Q,north,4" +:+ str1 Chr.LF +:+ "R,5,6".

(** A file whose row has a description and no title. *)
Definition untitledRow : string :=
  "Title,Description,Latitude,Longitude" +:+ str1 Chr.LF +:+ ",hello,1,2".

Definition registry : list (string * Project.t) :=
  [ ("default", {| Project.name := "Default Map"; Project.markers := [clicked];
                   Project.shapes := [] |});
    ("map_1700000000000",
      {| Project.name := "Field Survey"; Project.markers := [cafe];
         Project.shapes := [GeoJSON "{}"] |}) ].

Definition onSurvey : appState :=
  {| savedMaps := registry; currentMap := "map_1700000000000";
     markers := [cafe]; shapes := [GeoJSON "{}"];
     localStorage_maps := Some registry |}.
End Sample.

(** ** Further handlers of the marker store *)

(** [prev.filter((x) => x.id !== m.id)], the delete button of a popup;
    [mid] is the id of the marker of the popup. *)
Definition deleteMarker (mid : float) (prev : list marker) : list marker :=
  List.filter (fun x => negb (PrimFloat.eqb (id x) mid)) prev.

(** The onloadend callback of handleImageUpload:
    [prev.map((m) => (m.id === id ? { ...m, image: reader.result } : m))];
    [result] is reader.result, a data URL, or null after a failed read. *)
Definition handleImageUpload (mid : float) (result : option string)
    (prev : list marker) : list marker :=
  map (fun m =>
         if PrimFloat.eqb (id m) mid then
           {| id := id m; position := position m; title := title m;
              description := description m; category := category m;
              image := result |}
         else m)
      prev.

(** [s.toLowerCase()] on the strings of this development, whose code units
    are below 256: the letters A to Z and the capital letters of Latin-1
    (U+00C0 to U+00DE, the multiplication sign U+00D7 apart) move up by 32,
    each on its own.  On other text the method looks at the context of a
    letter (a capital sigma at the end of a word); nothing below relies on
    lower-casing going letter by letter. *)
Definition toLowerChar (c : ascii) : ascii :=
  let n := nat_of_ascii c in
  if ((65 <=? n) && (n <=? 90)
      || (192 <=? n) && (n <=? 222) && negb (n =? 215))%nat
  then ascii_of_nat (n + 32) else c.

Fixpoint toLowerCase (s : string) : string :=
  match s with
  | EmptyString => EmptyString
  | String c s' => String (toLowerChar c) (toLowerCase s')
  end.

(** [s.includes(t)] *)
Fixpoint includes (s t : string) : bool :=
  String.prefix t s
  || match s with
     | EmptyString => false
     | String _ s' => includes s' t
     end.

(** [filteredMarkers], from the markers, the search term and the selected
    category of the state. *)
Definition filteredMarkers (markers : list marker)
    (searchTerm selectedCategory : string) : list marker :=
  List.filter
    (fun m =>
       let textMatch :=
         includes (toLowerCase (title m)) (toLowerCase searchTerm)
         || includes (toLowerCase (description m)) (toLowerCase searchTerm) in
       let categoryMatch :=
         String.eqb selectedCategory "All" || categoryIs selectedCategory m in
       textMatch && categoryMatch)
    markers.

(** ** Further handlers of the project registry *)

(** [{ ...o, [k]: v }]: the value of an existing key is replaced where it
    stands, a new key goes last. *)
Fixpoint setKey {A} (k : string) (v : A) (o : list (string * A))
    : list (string * A) :=
  match o with
  | [] => [(k, v)]
  | (k', v') :: rest =>
      if String.eqb k' k then (k, v) :: rest else (k', v') :: setKey k v rest
  end.

(** The state of the component before its first effect; [stored] is the
    parsed value of the key [maps] of localStorage, if there is one. *)
Definition initialState (stored : option (list (string * Project.t))) : appState :=
  {| savedMaps :=
       default [("default", {| Project.name := "Default Map";
                               Project.markers := []; Project.shapes := [] |})]
               stored;
     currentMap := "default";
     markers := [];
     shapes := [];
     localStorage_maps := stored |}.

(** The effect on [markers, shapes, currentMap]: the entry of the active
    project takes the markers and shapes of the state, and the registry is
    written to the storage.  [None] when the active key has no entry: the
    source then writes an entry without a name, which [Project.t] does not
    hold. *)
Definition persistEffect (st : appState) : option appState :=
  match lookupKey (currentMap st) (savedMaps st) with
  | Some p =>
      let updated :=
        setKey (currentMap st)
          {| Project.name := Project.name p; Project.markers := markers st;
             Project.shapes := shapes st |}
          (savedMaps st) in
      Some {| savedMaps := updated; currentMap := currentMap st;
              markers := markers st; shapes := shapes st;
              localStorage_maps := Some updated |}
  | None => None
  end.

(** [handleSelectMap(mapId)] *)
Definition handleSelectMap (mapId : string) (st : appState) : appState :=
  {| savedMaps := savedMaps st;
     currentMap := mapId;
     markers := default [] (Project.markers <$> lookupKey mapId (savedMaps st));
     shapes := default [] (Project.shapes <$> lookupKey mapId (savedMaps st));
     localStorage_maps := localStorage_maps st |}.

(** [!newName?.trim()] for the answer of prompt, [None] when it is null. *)
Definition blankAnswer (answer : option string) : bool :=
  match answer with
  | Some s => String.eqb (trim s) ""
  | None => true
  end.

(** [handleCreateMap()]; [answer] is what prompt returns and [now] the value
    of Date.now(). *)
Definition handleCreateMap (answer : option string) (now : float)
    (st : appState) : appState :=
  if blankAnswer answer then st
  else
    let newId := "map_" +:+ JSNumber.toString now in
    let updated :=
      setKey newId
        {| Project.name := trim (default "" answer); Project.markers := [];
           Project.shapes := [] |}
        (savedMaps st) in
    {| savedMaps := updated; currentMap := newId; markers := []; shapes := [];
       localStorage_maps := Some updated |}.

(** [handleRenameMap()]; [None] for the TypeError that reading
    [savedMaps[currentMap].name] throws when the active key has no entry. *)
Definition handleRenameMap (answer : option string) (st : appState)
    : option appState :=
  match lookupKey (currentMap st) (savedMaps st) with
  | None => None
  | Some p =>
      if blankAnswer answer then Some st
      else
        let updated :=
          setKey (currentMap st)
            {| Project.name := trim (default "" answer);
               Project.markers := Project.markers p;
               Project.shapes := Project.shapes p |}
            (savedMaps st) in
        Some {| savedMaps := updated; currentMap := currentMap st;
                markers := markers st; shapes := shapes st;
                localStorage_maps := Some updated |}
  end.

(** ** The slices of the Dashboard *)

Definition CATEGORY_COLORS : list (string * string) :=
  [ ("General", "#3388ff"); ("Restaurant", "#e74c3c"); ("College", "#27ae60");
    ("Event", "#f1c40f"); ("Shop", "#9b59b6") ].

Module Slice.
Record t := { name : string; value : nat; color : string }.
End Slice.

(** The [counts] object of the Dashboard with its keys in the order of
    Object.entries, which for keys that are no array indices, as the five
    categories, is the order in which they were first written. *)
Definition Dashboard_entries (markers : list marker) : list (string * nat) :=
  foldl (fun counts m =>
           let cat := orElse (category m) "General" in
           setKey cat (default 0 (lookupKey cat counts) + 1)%nat counts)
        [] markers.

(** The [data] of the Dashboard.  [CATEGORY_COLORS[name] || "#3388ff"] reads
    as written here for every name that is not a property inherited from
    Object.prototype. *)
Definition Dashboard_data (markers : list marker) : list Slice.t :=
  map (fun e =>
         {| Slice.name := fst e; Slice.value := snd e;
            Slice.color := orElse (lookupKey (fst e) CATEGORY_COLORS) "#3388ff" |})
      (Dashboard_entries markers).

(** ** Interactions with the whole component *)

Inductive action :=
  | OnMarkers (ev : event)
  | SelectMap (mapId : string)
  | CreateMap (answer : option string) (now : float)
  | RenameMap (answer : option string)
  | DeleteMap (confirmed : bool).

(** The state a handler sets. *)
Definition afterHandler (M : MathLib) (a : action) (st : appState)
    : option appState :=
  match a with
  | OnMarkers ev =>
      Some {| savedMaps := savedMaps st; currentMap := currentMap st;
              markers := handle M (markers st) ev; shapes := shapes st;
              localStorage_maps := localStorage_maps st |}
  | SelectMap mapId => Some (handleSelectMap mapId st)
  | CreateMap answer now => Some (handleCreateMap answer now st)
  | RenameMap answer => handleRenameMap answer st
  | DeleteMap confirmed => Some (fst (handleDeleteMap confirmed st))
  end.

(** A handler, then the effect.  (When a handler changes neither the
    markers, the shapes nor the active key, React skips the effect; on a
    state the effect has already seen, running it changes nothing.) *)
Definition act (M : MathLib) (a : action) (st : appState) : option appState :=
  afterHandler M a st ≫= persistEffect.

Definition acts (M : MathLib) (l : list action) (st : appState)
    : option appState :=
  foldl (fun o a => o ≫= act M a) (Some st) l.

(** The state after the first effect. *)
Definition mount (stored : option (list (string * Project.t))) : option appState :=
  persistEffect (initialState stored).

(** The registry has no key twice and has the default key, the entry of the
    active key holds the markers and shapes of the state, and the storage
    holds the registry. *)
Definition synced (st : appState) : Prop :=
  NoDup (map fst (savedMaps st))
  ∧ is_Some (lookupKey "default" (savedMaps st))
  ∧ (∃ p, lookupKey (currentMap st) (savedMaps st) = Some p
          ∧ Project.markers p = markers st ∧ Project.shapes p = shapes st)
  ∧ localStorage_maps st = Some (savedMaps st).

(** ** Further vocabulary *)

(** The category is set to one of the enumeration. *)
Definition hasKnownCategory (m : marker) : bool :=
  match category m with
  | Some c => knownCategory c
  | None => false
  end.

(** The position passes the test of handleAddMarker and of the import. *)
Definition validPosition (m : marker) : bool :=
  negb (invalidLatLng (fst (position m)) (snd (position m))).

(** What holds of a marker when a click or an import makes it: its
    position is valid, its category is set to one of the enumeration, its
    title is not empty and it has no image. *)
Definition wellMade (m : marker) : Prop :=
  validPosition m = true ∧ hasKnownCategory m = true ∧ title m ≠ ""
  ∧ image m = None.

Definition isClick (ev : event) : bool :=
  match ev with
  | MapClick _ _ _ => true
  | FileLoaded _ _ => false
  end.

(** No marker is a duplicate of the markers before it in the list. *)
Definition keepsDistance (M : MathLib) (l : list marker) : Prop :=
  ∀ l1 m l2, l = l1 ++ m :: l2 →
    isDuplicate M l1 (fst (position m)) (snd (position m)) = false.

Definition noQuote (s : string) : bool :=
  allChars (fun c => negb (Ascii.eqb c Chr.dquote)) s.

(** * Properties *)

(** ** Field update (handleTextChange) *)

Lemma handleTextChange_length prev id field v :
  length (handleTextChange prev id field v) = length prev.
Proof. unfold handleTextChange. apply length_map. Qed.

Lemma handleTextChange_lookup prev id field v i m :
  prev !! i = Some m →
  handleTextChange prev id field v !! i
  = Some (if strictEq (getProp m "id") id then <[field := v]> m else m).
Proof.
  unfold handleTextChange. revert i.
  induction prev as [|m0 prev IH]; intros [|i] Hi; simplify_eq/=; auto.
Qed.

Lemma handleTextChange_no_match prev id field v :
  (∀ m, m ∈ prev → strictEq (getProp m "id") id = false) →
  handleTextChange prev id field v = prev.
Proof.
  unfold handleTextChange.
  induction prev as [|m0 prev IH]; intros Hno; simpl; [done|].
  rewrite (Hno m0) by apply list_elem_of_here.
  f_equal. apply IH. intros m Hm. apply Hno. by apply list_elem_of_further.
Qed.

(** C10.  For every list of markers, id, field name and value, the update
    keeps the number and the order of the markers: the marker at each index
    is the old one when its id differs, and otherwise the old one with the
    named field set to the value and every other field as before.  When no
    marker has the id, the list is unchanged. *)
Theorem handleTextChange_frame
    (prev : list (gmap string value)) (id v : value) (field : string) :
  length (handleTextChange prev id field v) = length prev
  ∧ (∀ i m, prev !! i = Some m →
       if strictEq (getProp m "id") id
       then ∃ m', handleTextChange prev id field v !! i = Some m'
                  ∧ m' !! field = Some v
                  ∧ ∀ f, f ≠ field → m' !! f = m !! f
       else handleTextChange prev id field v !! i = Some m)
  ∧ ((∀ m, m ∈ prev → strictEq (getProp m "id") id = false) →
     handleTextChange prev id field v = prev).
Proof.
  split; [apply handleTextChange_length|].
  split; [|apply handleTextChange_no_match].
  intros i m Hi.
  rewrite (handleTextChange_lookup _ _ _ _ _ _ Hi).
  destruct (strictEq (getProp m "id") id); [|done].
  exists (<[field := v]> m). split; [done|]. split.
  - apply lookup_insert_eq.
  - intros f Hf. by apply lookup_insert_ne.
Qed.

(** The three calls of the source set the title, the description or the
    category of a marker: on the object of a marker this is the update of
    the record field. *)
Lemma markerObject_set_title addr m s :
  <["title" := VStr s]> (markerObject addr m)
  = markerObject addr
      {| id := id m; position := position m; title := s;
         description := description m; category := category m;
         image := image m |}.
Proof.
  unfold markerObject; simpl. apply map_eq; intros k.
  destruct (category m); simpl;
    repeat (rewrite ?lookup_insert; case_decide; simplify_eq; try done).
Qed.

Lemma markerObject_set_category addr m s :
  <["category" := VStr s]> (markerObject addr m)
  = markerObject addr
      {| id := id m; position := position m; title := title m;
         description := description m; category := Some s;
         image := image m |}.
Proof.
  unfold markerObject; simpl. apply map_eq; intros k.
  destruct (category m); simpl;
    repeat (rewrite ?lookup_insert; case_decide; simplify_eq; try done).
Qed.

(** ** Adding a marker by a click *)

Section AddMarkerFacts.
Variable M : MathLib.

(** The loop of isDuplicate answers whether some marker of the state lies
    within the threshold. *)
Lemma isDuplicateWithin_true thr (markers : list marker) lat lng :
  isDuplicateWithin M thr markers lat lng = true
  ↔ ∃ m, m ∈ markers
       ∧ (distanceMeters M lat lng (fst (position m)) (snd (position m))
          <=? thr)%float = true.
Proof.
  induction markers as [|m0 markers IH]; simpl.
  - split; [done|]. intros (m & Hm & _). by apply elem_of_nil in Hm.
  - destruct (distanceMeters M lat lng (fst (position m0)) (snd (position m0))
              <=? thr)%float eqn:Hd.
    + split; [|done]. intros _. exists m0. split; [apply list_elem_of_here|done].
    + rewrite IH. split.
      * intros (m & Hm & Hle). exists m. split; [by apply list_elem_of_further|done].
      * intros (m & Hm & Hle). apply elem_of_cons in Hm as [->|Hm].
        -- congruence.
        -- by exists m.
Qed.

Lemma handleAddMarker_markers now (markers : list marker) lat lng :
  fst (handleAddMarker M now markers lat lng) = markers
  ∨ ∃ nm, fst (handleAddMarker M now markers lat lng) = (markers ++ [nm])%list
          ∧ position nm = (lat, lng) ∧ id nm = now
          ∧ isDuplicate M markers lat lng = false
          ∧ invalidLatLng lat lng = false.
Proof.
  unfold handleAddMarker.
  destruct (invalidLatLng lat lng); [by left|].
  destruct (isDuplicate M markers lat lng); [by left|].
  right. eexists. by repeat split.
Qed.

(** C5.  When the haversine distance (Earth radius 6,371,000 m) from the
    clicked position to some marker of the state is at most 5 metres, the
    click is refused as a duplicate and the markers are left as they were;
    handleAddMarker itself leaves them as they were too, and reports the
    duplicate whenever the coordinates are valid. *)
Theorem add_duplicate_rejected now (markers : list marker) lat lng :
  (∃ m, m ∈ markers
        ∧ (distanceMeters M lat lng (fst (position m)) (snd (position m))
           <=? 5)%float = true) →
  AddMarker_click M false now markers lat lng
  = (markers, Some AlertDuplicatePrevented)
  ∧ fst (handleAddMarker M now markers lat lng) = markers
  ∧ (invalidLatLng lat lng = false →
     handleAddMarker M now markers lat lng
     = (markers, Some AlertDuplicateNotAdded)).
Proof.
  intros Hdup.
  assert (isDuplicate M markers lat lng = true) as Hd
    by (by apply isDuplicateWithin_true).
  unfold AddMarker_click, handleAddMarker. rewrite Hd.
  split; [done|]. split.
  - by destruct (invalidLatLng lat lng).
  - by intros ->.
Qed.

End AddMarkerFacts.

(** A click on the position of the only marker of the state. *)
Lemma add_duplicate_rejected_witness :
  AddMarker_click RefMath.lib false 1700000000999%float [Sample.clicked] 1 2
  = ([Sample.clicked], Some AlertDuplicatePrevented)
  ∧ fst (handleAddMarker RefMath.lib 1700000000999%float [Sample.clicked] 1 2)
    = [Sample.clicked]
  ∧ (invalidLatLng 1 2 = false →
     handleAddMarker RefMath.lib 1700000000999%float [Sample.clicked] 1 2
     = ([Sample.clicked], Some AlertDuplicateNotAdded)).
Proof.
  apply (add_duplicate_rejected RefMath.lib).
  exists Sample.clicked. split.
  - apply list_elem_of_here.
  - vm_compute. reflexivity.
Defined.

(** A click five metres and more away is accepted: the rejection above is
    not all the handler does. *)
Example add_far_accepted :
  AddMarker_click RefMath.lib false 7 [Sample.clicked] 10 10
  = ([Sample.clicked;
      {| id := 7; position := (10%float, 10%float); title := "New Marker";
         description := ""; category := Some "General"; image := None |}],
     None).
Proof. vm_compute. reflexivity. Qed.

(** ** Deleting a project (handleDeleteMap) *)

Lemma lookupKey_deleteKey_eq {A} k (o : list (string * A)) :
  lookupKey k (deleteKey k o) = None.
Proof.
  induction o as [|[k' v] o IH]; simpl; [done|].
  destruct (String.eqb k' k) eqn:E; simpl; [done|]. by rewrite E.
Qed.

Lemma lookupKey_deleteKey_ne {A} k k' (o : list (string * A)) :
  k' ≠ k → lookupKey k' (deleteKey k o) = lookupKey k' o.
Proof.
  intros Hne. induction o as [|[k0 v] o IH]; simpl; [done|].
  destruct (String.eqb k0 k) eqn:E; simpl.
  - apply String.eqb_eq in E as ->.
    destruct (String.eqb k k') eqn:E'; [|done].
    apply String.eqb_eq in E'. congruence.
  - by rewrite IH.
Qed.

Lemma keys_deleteKey {A} k (o : list (string * A)) :
  map fst (deleteKey k o)
  = List.filter (fun k' => negb (String.eqb k' k)) (map fst o).
Proof.
  induction o as [|[k0 v] o IH]; simpl; [done|].
  destruct (String.eqb k0 k); simpl; by rewrite IH.
Qed.

Lemma firstKeyOr_head {A} (o : list (string * A)) d :
  (∀ k, k ∈ map fst o → k ≠ "") →
  firstKeyOr o d = match map fst o with k :: _ => k | [] => d end.
Proof.
  unfold firstKeyOr. destruct o as [|[k v] o]; simpl; [done|].
  intros Hne. destruct (String.eqb k "") eqn:E; [|done].
  apply String.eqb_eq in E. exfalso. apply (Hne k); [apply list_elem_of_here|done].
Qed.

(** C7.  Deleting while the reserved default project is active is refused
    with the protected-project alert and changes nothing.  Deleting any other
    active project (the user having confirmed) removes exactly that entry of
    the registry, writes the registry to the storage, and makes the first
    remaining key the active one, or default when none remains; the markers
    and shapes shown are those of the new active project. *)
Theorem handleDeleteMap_protects_default (confirmed : bool) (st : appState) :
  (currentMap st = "default" →
   handleDeleteMap confirmed st = (st, Some AlertCantDeleteDefault))
  ∧ (currentMap st ≠ "default" → confirmed = true →
     ∃ st', handleDeleteMap confirmed st = (st', None)
       ∧ lookupKey (currentMap st) (savedMaps st') = None
       ∧ (∀ k, k ≠ currentMap st →
            lookupKey k (savedMaps st') = lookupKey k (savedMaps st))
       ∧ map fst (savedMaps st')
         = List.filter (fun k => negb (String.eqb k (currentMap st)))
             (map fst (savedMaps st))
       ∧ localStorage_maps st' = Some (savedMaps st')
       ∧ ((∀ k, k ∈ map fst (savedMaps st) → k ≠ "") →
          currentMap st'
          = match map fst (savedMaps st') with k :: _ => k | [] => "default" end)
       ∧ markers st'
         = default [] (Project.markers <$> lookupKey (currentMap st') (savedMaps st'))
       ∧ shapes st'
         = default [] (Project.shapes <$> lookupKey (currentMap st') (savedMaps st'))).
Proof.
  unfold handleDeleteMap. split.
  - intros ->. done.
  - intros Hne ->.
    destruct (String.eqb (currentMap st) "default") eqn:E.
    { apply String.eqb_eq in E. done. }
    simpl. eexists. split; [reflexivity|]. simpl.
    split; [apply lookupKey_deleteKey_eq|].
    split; [intros k Hk; by apply lookupKey_deleteKey_ne|].
    split; [apply keys_deleteKey|].
    split; [done|].
    split; [|done].
    intros Hkeys. apply firstKeyOr_head.
    intros k Hk. apply Hkeys.
    rewrite keys_deleteKey in Hk.
    apply list_elem_of_In, filter_In in Hk as [Hk _]. by apply list_elem_of_In.
Qed.

(** Deleting the survey project of the sample registry activates default. *)
Example handleDeleteMap_sample :
  handleDeleteMap true Sample.onSurvey
  = ({| savedMaps := [("default",
                       {| Project.name := "Default Map";
                          Project.markers := [Sample.clicked];
                          Project.shapes := [] |})];
        currentMap := "default";
        markers := [Sample.clicked];
        shapes := [];
        localStorage_maps :=
          Some [("default",
                 {| Project.name := "Default Map";
                    Project.markers := [Sample.clicked];
                    Project.shapes := [] |})] |}, None).
Proof. reflexivity. Qed.

(** Without the confirmation nothing is deleted. *)
Lemma handleDeleteMap_declined st :
  handleDeleteMap false st
  = (st, if String.eqb (currentMap st) "default"
         then Some AlertCantDeleteDefault else None).
Proof. unfold handleDeleteMap. by destruct (String.eqb (currentMap st) "default"). Qed.

(** ** Category counts *)

Lemma countAs_cons k m (ms : list marker) :
  countAs k (m :: ms)
  = ((if String.eqb (orElse (category m) "General") k then 1 else 0)
     + countAs k ms)%nat.
Proof.
  unfold countAs; simpl.
  by destruct (String.eqb (orElse (category m) "General") k).
Qed.

(** The loop of the dashboard adds, under each key, the number of markers
    counted as that key. *)
Lemma Dashboard_counts_foldl (ms : list marker) (acc : gmap string nat) k :
  foldl (fun counts m =>
           let cat := orElse (category m) "General" in
           <[cat := (default 0 (counts !! cat) + 1)%nat]> counts) acc ms !! k
  = match acc !! k with
    | Some a => Some (a + countAs k ms)%nat
    | None => if decide (countAs k ms = 0%nat) then None else Some (countAs k ms)
    end.
Proof.
  revert acc. induction ms as [|m ms IH]; intros acc.
  - simpl. destruct (acc !! k); [f_equal; unfold countAs; simpl; lia|done].
  - simpl foldl. rewrite IH, countAs_cons. clear IH.
    destruct (String.eqb (orElse (category m) "General") k) eqn:E.
    + apply String.eqb_eq in E. rewrite E, lookup_insert_eq.
      destruct (acc !! k); simpl.
      * f_equal. lia.
      * done.
    + assert (orElse (category m) "General" ≠ k) as Hne.
      { intros Hk. rewrite Hk, String.eqb_refl in E. done. }
      rewrite lookup_insert_ne by done. simpl. done.
Qed.

Lemma Dashboard_counts_lookup (ms : list marker) k :
  Dashboard_counts ms !! k
  = if decide (countAs k ms = 0%nat) then None else Some (countAs k ms).
Proof. unfold Dashboard_counts. by rewrite Dashboard_counts_foldl, lookup_empty. Qed.

Lemma countAs_pos k (ms : list marker) :
  countAs k ms ≠ 0%nat ↔ ∃ m, m ∈ ms ∧ orElse (category m) "General" = k.
Proof.
  induction ms as [|m ms IH].
  - split; [done|]. intros (m & Hm & _). by apply elem_of_nil in Hm.
  - rewrite countAs_cons.
    destruct (String.eqb (orElse (category m) "General") k) eqn:E.
    + split; [|lia]. intros _. exists m.
      split; [apply list_elem_of_here|by apply String.eqb_eq].
    + simpl. rewrite IH. split.
      * intros (m' & Hm' & Hk). exists m'. split; [by apply list_elem_of_further|done].
      * intros (m' & Hm' & Hk). apply elem_of_cons in Hm' as [->|Hm'].
        -- rewrite Hk, String.eqb_refl in E. done.
        -- by exists m'.
Qed.

Lemma catCounts_unfold (ms : list marker) :
  catCounts ms
  = <["Shop" := length (List.filter (categoryIs "Shop") ms)]>
    (<["Event" := length (List.filter (categoryIs "Event") ms)]>
    (<["College" := length (List.filter (categoryIs "College") ms)]>
    (<["Restaurant" := length (List.filter (categoryIs "Restaurant") ms)]>
    (<["General" := length (List.filter (categoryIs "General") ms)]> ∅)))).
Proof. reflexivity. Qed.

Lemma knownCategory_iff c :
  knownCategory c = true ↔ c ∈ map key CATEGORIES.
Proof.
  unfold knownCategory. rewrite existsb_exists. split.
  - intros (x & Hx & E). apply String.eqb_eq in E as <-.
    apply list_elem_of_In, in_map, Hx.
  - intros Hc. apply list_elem_of_In, in_map_iff in Hc as (x & <- & Hx).
    exists x. split; [done|apply String.eqb_refl].
Qed.

(** With its category set to a known one, a marker counts under a key
    exactly when its category is that key. *)
Lemma countAs_categoryIs k (ms : list marker) :
  Forall (fun m => categoryOK m = true ∧ category m ≠ None) ms →
  length (List.filter (categoryIs k) ms) = countAs k ms.
Proof.
  unfold countAs. induction 1 as [|m ms [Hok Hset] _ IH]; simpl; [done|].
  unfold categoryIs at 1. unfold categoryOK in Hok.
  destruct (category m) as [c|]; [|done]. simpl.
  assert (String.eqb c "" = false) as ->.
  { destruct (String.eqb c "") eqn:E; [|done].
    apply String.eqb_eq in E as ->. done. }
  destruct (String.eqb c k); simpl; by rewrite IH.
Qed.

(** C4, amended.  For markers whose category is unset or one of the
    enumeration: the counts of the dashboard map each category that occurs
    (an unset one counting as General) to its number of markers and hold no
    entry for a category without markers; the counts of the report have
    exactly the five categories as their keys, and when every marker has its
    category set, each key maps to its number of markers, 0 when there is
    none. *)
Theorem category_counts (ms : list marker) :
  Forall (fun m => categoryOK m = true) ms →
  (∀ k, Dashboard_counts ms !! k
        = if decide (countAs k ms = 0%nat) then None else Some (countAs k ms))
  ∧ (∀ k, k ∈ dom (Dashboard_counts ms)
          ↔ ∃ m, m ∈ ms ∧ orElse (category m) "General" = k)
  ∧ dom (Dashboard_counts ms) ⊆ list_to_set (map key CATEGORIES)
  ∧ dom (catCounts ms) = list_to_set (map key CATEGORIES)
  ∧ (Forall (fun m => category m ≠ None) ms →
     ∀ k, k ∈ map key CATEGORIES → catCounts ms !! k = Some (countAs k ms)).
Proof.
  intros Hok.
  assert (∀ k, k ∈ dom (Dashboard_counts ms)
               ↔ ∃ m, m ∈ ms ∧ orElse (category m) "General" = k) as Hdom.
  { intros k. rewrite elem_of_dom, Dashboard_counts_lookup, <- countAs_pos.
    case_decide; split; intros H'; done. }
  split; [apply Dashboard_counts_lookup|].
  split; [done|]. split; [|split].
  - intros k Hk. destruct (proj1 (Hdom k) Hk) as (m & Hm & Hmk). subst k.
    rewrite Forall_forall in Hok. specialize (Hok m Hm).
    rewrite elem_of_list_to_set. unfold categoryOK, orElse in *.
    destruct (category m) as [c|]; [|by apply knownCategory_iff].
    destruct (String.eqb c ""); by apply knownCategory_iff.
  - rewrite catCounts_unfold. rewrite !dom_insert_L, dom_empty_L.
    simpl. set_solver.
  - intros Hset k Hk.
    rewrite <- (countAs_categoryIs k ms).
    + rewrite catCounts_unfold. simpl in Hk.
      repeat (apply elem_of_cons in Hk as [->|Hk]); try by simplify_map_eq.
      by apply elem_of_nil in Hk.
    + rewrite Forall_forall in *. intros m Hm. split; [by apply Hok|by apply Hset].
Qed.

Lemma category_counts_witness :
  (∀ k, Dashboard_counts [Sample.shopA; Sample.shopB; Sample.unset] !! k
        = if decide (countAs k [Sample.shopA; Sample.shopB; Sample.unset] = 0%nat)
          then None
          else Some (countAs k [Sample.shopA; Sample.shopB; Sample.unset]))
  ∧ (∀ k, k ∈ dom (Dashboard_counts [Sample.shopA; Sample.shopB; Sample.unset])
          ↔ ∃ m, m ∈ [Sample.shopA; Sample.shopB; Sample.unset]
                 ∧ orElse (category m) "General" = k)
  ∧ dom (Dashboard_counts [Sample.shopA; Sample.shopB; Sample.unset])
    ⊆ list_to_set (map key CATEGORIES)
  ∧ dom (catCounts [Sample.shopA; Sample.shopB; Sample.unset])
    = list_to_set (map key CATEGORIES)
  ∧ (Forall (fun m => category m ≠ None)
       [Sample.shopA; Sample.shopB; Sample.unset] →
     ∀ k, k ∈ map key CATEGORIES →
          catCounts [Sample.shopA; Sample.shopB; Sample.unset] !! k
          = Some (countAs k [Sample.shopA; Sample.shopB; Sample.unset])).
Proof.
  apply (category_counts [Sample.shopA; Sample.shopB; Sample.unset]).
  repeat constructor.
Defined.

(** The counts of the dashboard and of the report over two shops and a
    marker without category. *)
Example Dashboard_counts_sample :
  Dashboard_counts [Sample.shopA; Sample.shopB; Sample.unset]
  = {[ "Shop" := 2%nat; "General" := 1%nat ]}.
Proof.
  apply map_eq; intros k. rewrite Dashboard_counts_lookup.
  destruct (decide (k = "Shop")) as [->|H1]; [done|].
  destruct (decide (k = "General")) as [->|H2]; [done|].
  rewrite lookup_insert_ne, lookup_singleton_ne by done.
  assert (countAs k [Sample.shopA; Sample.shopB; Sample.unset] = 0%nat) as ->; [|done].
  rewrite !countAs_cons.
  change (orElse (category Sample.shopA) "General") with "Shop".
  change (orElse (category Sample.shopB) "General") with "Shop".
  change (orElse (category Sample.unset) "General") with "General".
  destruct (String.eqb "Shop" k) eqn:E1;
    [apply String.eqb_eq in E1; congruence|].
  destruct (String.eqb "General" k) eqn:E2;
    [apply String.eqb_eq in E2; congruence|]. done.
Qed.

Example catCounts_sample :
  catCounts [Sample.shopA; Sample.shopB; Sample.unset]
  = {[ "Shop" := 2%nat; "General" := 0%nat; "Restaurant" := 0%nat;
       "College" := 0%nat; "Event" := 0%nat ]}.
Proof.
  vm_compute. reflexivity.
Qed.

(** C4, as stated, fails on [shopA; shopB; unset]: the dashboard reports no
    Restaurant (nor College, nor Event) entry, and the report counts the
    marker without category under no key, so General is 0 there. *)
Lemma category_counts_counterexample :
  Dashboard_counts [Sample.shopA; Sample.shopB; Sample.unset]
  ≠ Sample.expectedCounts
  ∧ catCounts [Sample.shopA; Sample.shopB; Sample.unset] ≠ Sample.expectedCounts
  ∧ categoryCounts_spec [Sample.shopA; Sample.shopB; Sample.unset]
    = Sample.expectedCounts.
Proof.
  split; [|split].
  - rewrite Dashboard_counts_sample. intros H.
    apply (f_equal (fun m => m !! "Restaurant")) in H.
    unfold Sample.expectedCounts in H. by simplify_map_eq.
  - rewrite catCounts_sample. intros H.
    apply (f_equal (fun m => m !! "General")) in H.
    unfold Sample.expectedCounts in H. by simplify_map_eq.
  - vm_compute. reflexivity.
Qed.

(** ** Strings *)

Lemma sapp_nil_l (s : string) : "" +:+ s = s.
Proof. reflexivity. Qed.

Lemma sapp_cons c (s t : string) : String c s +:+ t = String c (s +:+ t).
Proof. reflexivity. Qed.

Lemma sapp_nil_r (s : string) : s +:+ "" = s.
Proof. induction s as [|c s IH]; [done|]. by rewrite sapp_cons, IH. Qed.

Lemma sapp_assoc (s t u : string) : (s +:+ t) +:+ u = s +:+ (t +:+ u).
Proof. induction s as [|c s IH]; [done|]. by rewrite !sapp_cons, IH. Qed.

Lemma str1_app c (s : string) : str1 c +:+ s = String c s.
Proof. reflexivity. Qed.

(** ** CSV export (markersToCSVString) *)

Lemma join_cons sep x y (l : list string) :
  join sep (x :: y :: l) = x +:+ sep +:+ join sep (y :: l).
Proof. reflexivity. Qed.

Lemma orElse_empty (s : string) : orElse (Some s) "" = s.
Proof.
  unfold orElse. destruct (String.eqb s "") eqn:E; [|done].
  by apply String.eqb_eq in E.
Qed.

Lemma csvRow_text m : join "," (csvRow m) = rowText m.
Proof. unfold csvRow, rowText. by rewrite !join_cons, !orElse_empty. Qed.

Lemma join_lines x (ms : list marker) :
  join (str1 Chr.LF) (x :: map (join ",") (map csvRow ms)) = x +:+ rowsText ms.
Proof.
  revert x. induction ms as [|m ms IH]; intros x.
  - simpl. by rewrite sapp_nil_r.
  - change (map (join ",") (map csvRow (m :: ms)))
      with (join "," (csvRow m) :: map (join ",") (map csvRow ms)).
    by rewrite join_cons, IH, csvRow_text.
Qed.

(** The export is the header followed by the rows, written out. *)
Lemma markersToCSVString_text (ms : list marker) :
  markersToCSVString ms
  = "Title,Description,Latitude,Longitude,Category" +:+ rowsText ms.
Proof. unfold markersToCSVString. apply join_lines. Qed.

(** C2, amended.  For every list of markers the CSV text is the header row
    Title,Description,Latitude,Longitude,Category followed, for each marker
    in the order of the list, by a line feed and the row of the marker: its
    title and its description, each between double quotes with every double
    quote inside doubled, then its latitude, its longitude and its category
    as their plain text, without quotes (an unset category as the empty
    text). *)
Theorem markersToCSVString_rows (ms : list marker) :
  markersToCSVString ms
  = "Title,Description,Latitude,Longitude,Category" +:+ rowsText ms
  ∧ (∀ m, rowText m
          = str1 Chr.dquote
            +:+ replaceAll Chr.dquote (String Chr.dquote (str1 Chr.dquote)) (title m)
            +:+ str1 Chr.dquote +:+ ","
            +:+ str1 Chr.dquote
            +:+ replaceAll Chr.dquote (String Chr.dquote (str1 Chr.dquote))
                  (description m)
            +:+ str1 Chr.dquote +:+ ","
            +:+ JSNumber.toString (fst (position m)) +:+ ","
            +:+ JSNumber.toString (snd (position m)) +:+ ","
            +:+ match category m with
                | Some c => c
                | None => ""
                end).
Proof.
  split.
  - apply markersToCSVString_text.
  - intros m. unfold rowText, quoted. rewrite !sapp_assoc.
    do 10 f_equal. unfold orElse.
    destruct (category m) as [c|]; [|done].
    destruct (String.eqb c "") eqn:E; [|done].
    apply String.eqb_eq in E. by subst c.
Qed.

(** C2, as stated, fails on the marker a click creates: its latitude,
    longitude and category are written without quotes. *)
Lemma markersToCSVString_counterexample :
  markersToCSVString [Sample.clicked] ≠ toCSV_spec [Sample.clicked]
  ∧ markersToCSVString [Sample.clicked]
    = "Title,Description,Latitude,Longitude,Category" +:+ str1 Chr.LF
      +:+ quoted "New Marker" +:+ "," +:+ quoted "" +:+ ",1,2,General".
Proof. split; [by vm_compute|]. vm_compute. reflexivity. Qed.

(** ** CSV import: the row loop *)

Section ImportFacts.
Variable M : MathLib.
Variable markers : list marker.
Variable clock : nat → float.
Variable ix : idx.t.
Variables latIx lngIx : nat.

Local Abbreviation body := (rowBody M markers clock ix latIx lngIx).
Local Abbreviation loop := (forEachRow M markers clock ix latIx lngIx).
Local Abbreviation errs := (rowErrors M markers clock ix latIx lngIx).
Local Abbreviation news := (rowMarkers M markers clock ix latIx lngIx).

(** A row adds its own errors and markers to the lists, whatever they hold:
    no row is judged against the rows before it. *)
Lemma rowBody_adds acc r i :
  body acc r i
  = {| imported := imported acc + length (news i r);
       errors := errors acc ++ errs i r;
       newMarkers := newMarkers acc ++ news i r |}.
Proof.
  unfold rowErrors, rowMarkers, rowBody, pushError.
  repeat match goal with
         | |- context [if ?b then _ else _] => destruct b
         end; simpl; rewrite ?app_nil_r; f_equal; lia.
Qed.

(** A row gives one error and no marker, or no error and one marker. *)
Lemma row_error_or_marker i r :
  (length (errs i r) = 1 ∧ news i r = [])
  ∨ (errs i r = [] ∧ length (news i r) = 1).
Proof.
  unfold rowErrors, rowMarkers, rowBody, pushError.
  repeat match goal with
         | |- context [if ?b then _ else _] => destruct b
         end; simpl; auto.
Qed.

Lemma forEachRow_lists rs : ∀ i acc,
  errors (loop i rs acc)
  = errors acc ++ concat (imap (fun j => errs (i + j)) rs)
  ∧ newMarkers (loop i rs acc)
    = newMarkers acc ++ concat (imap (fun j => news (i + j)) rs)
  ∧ imported (loop i rs acc)
    = imported acc + length (concat (imap (fun j => news (i + j)) rs)).
Proof.
  induction rs as [|r rs IH]; intros i acc.
  - simpl. rewrite !app_nil_r. auto.
  - simpl forEachRow. destruct (IH (S i) (body acc r i)) as (He & Hn & Hi).
    rewrite He, Hn, Hi, rowBody_adds. simpl.
    rewrite Nat.add_0_r, <- !app_assoc, length_app.
    assert (∀ A (f : nat → list string → list A),
              imap (fun j => f (S (i + j))) rs
              = imap ((fun j => f (i + j)) ∘ S) rs) as Hext.
    { intros A f. apply imap_ext. intros j x _. simpl. f_equal. lia. }
    rewrite !Hext.
    repeat split; try done; lia.
Qed.

Lemma badLatitude_row i r :
  badLatitude latIx r = true →
  length (errs i r) = 1 ∧ news i r = [].
Proof.
  unfold badLatitude, rowErrors, rowMarkers, rowBody, invalidLatLng, pushError.
  intros Hbad.
  destruct (falsy (r !! latIx)); simpl; [done|].
  destruct (JSNumber.isFinite (numberOfCell (r !! latIx))); simpl in *.
  - destruct (falsy (r !! lngIx)); simpl; [done|].
    destruct (JSNumber.isFinite (numberOfCell (r !! lngIx))); simpl; [|done].
    destruct (numberOfCell (r !! latIx) <? -90)%float; simpl in *; [done|].
    by rewrite Hbad.
  - by destruct (falsy (r !! lngIx)).
Qed.

Lemma acceptedRow_row i r :
  acceptedRow M markers latIx lngIx r = true →
  errs i r = []
  ∧ news i r
    = [ {| id := (clock i + numOfNat i)%float;
           position := (numberOfCell (r !! latIx), numberOfCell (r !! lngIx));
           title :=
             orElse (Some match idx.title ix with
                          | Some j => orElse (r !! j) ""
                          | None => ""
                          end) "Imported Marker";
           description := orElse (Some (descCell ix r)) "";
           category :=
             Some (let cat := match idx.cat ix with
                              | Some j => orElse (r !! j) "General"
                              | None => "General"
                              end in
                   if knownCategory cat then cat else "General");
           image := None |} ].
Proof.
  unfold acceptedRow, rowErrors, rowMarkers, rowBody, descCell.
  intros H. repeat (apply andb_prop in H as [H ?]).
  repeat match goal with
         | H : negb ?b = true |- _ => apply negb_true_iff in H; rewrite H
         end.
  done.
Qed.

(** A row rejected for a reason other than the duplicate test is rejected
    whatever the markers of the state are; and a row that passes the other
    tests is rejected exactly when its position is a duplicate of a marker of
    the state. *)
Lemma duplicate_row i r :
  falsy (r !! latIx) = false → falsy (r !! lngIx) = false →
  invalidLatLng (numberOfCell (r !! latIx)) (numberOfCell (r !! lngIx)) = false →
  isDuplicate M markers (numberOfCell (r !! latIx)) (numberOfCell (r !! lngIx))
  = true →
  errs i r = [rowLabel i +:+ ": duplicate marker skipped"] ∧ news i r = [].
Proof.
  unfold rowErrors, rowMarkers, rowBody. by intros -> -> -> ->.
Qed.

End ImportFacts.

(** ** CSV import: a file (onFileSelected) *)

Lemma elem_of_concat_imap {A B} (f : nat → A → list B) (l : list A) i x y :
  l !! i = Some x → y ∈ f i x → y ∈ concat (imap f l).
Proof.
  intros Hi Hy. apply list_elem_of_In, in_concat. exists (f i x). split.
  - apply list_elem_of_In, elem_of_lookup_imap. eauto.
  - by apply list_elem_of_In.
Qed.

Lemma onFileSelected_markers M (markers : list marker) clock text acc :
  importRows M markers clock text = Some acc →
  fst (onFileSelected M markers clock text) = markers ++ newMarkers acc.
Proof.
  unfold onFileSelected. intros ->. simpl.
  destruct (newMarkers acc); [by rewrite app_nil_r|done].
Qed.

(** C8.  When the latitude and longitude columns are present, every row of
    the file adds its own outcome to the result, whatever the other rows
    are: the errors are those of the rows, in order, and the markers added
    to the state are those of the rows, in order.  A row whose latitude is
    missing, not a finite number or out of range gives exactly one error
    message and no marker; a row with valid coordinates that duplicates no
    marker of the state gives no error and one marker, which is in the state
    after the import. *)
Theorem import_row_errors_do_not_abort M (markers : list marker) clock text acc :
  importRows M markers clock text = Some acc →
  ∃ la ln,
    idx.lat (headerIndices (headers (parseCSV text))) = Some la
    ∧ idx.lng (headerIndices (headers (parseCSV text))) = Some ln
    ∧ fst (onFileSelected M markers clock text) = markers ++ newMarkers acc
    ∧ errors acc
      = concat (imap (rowErrors M markers clock
                        (headerIndices (headers (parseCSV text))) la ln)
                     (rows (parseCSV text)))
    ∧ newMarkers acc
      = concat (imap (rowMarkers M markers clock
                        (headerIndices (headers (parseCSV text))) la ln)
                     (rows (parseCSV text)))
    ∧ imported acc = length (newMarkers acc)
    ∧ (∀ i r, rows (parseCSV text) !! i = Some r →
         badLatitude la r = true →
         length (rowErrors M markers clock
                   (headerIndices (headers (parseCSV text))) la ln i r) = 1
         ∧ rowMarkers M markers clock
             (headerIndices (headers (parseCSV text))) la ln i r = [])
    ∧ (∀ i r, rows (parseCSV text) !! i = Some r →
         acceptedRow M markers la ln r = true →
         rowErrors M markers clock
           (headerIndices (headers (parseCSV text))) la ln i r = []
         ∧ ∃ nm, rowMarkers M markers clock
                   (headerIndices (headers (parseCSV text))) la ln i r = [nm]
                 ∧ position nm
                   = (numberOfCell (r !! la), numberOfCell (r !! ln))
                 ∧ nm ∈ fst (onFileSelected M markers clock text)).
Proof.
  intros Himp. pose proof (onFileSelected_markers _ _ _ _ _ Himp) as Hfst.
  unfold importRows in Himp.
  destruct (idx.lat (headerIndices (headers (parseCSV text)))) as [la|]; [|done].
  destruct (idx.lng (headerIndices (headers (parseCSV text)))) as [ln|]; [|done].
  injection Himp as <-.
  set (ix := headerIndices (headers (parseCSV text))) in *.
  set (rs := rows (parseCSV text)) in *.
  destruct (forEachRow_lists M markers clock ix la ln rs 0 emptyAcc)
    as (He & Hn & Hi).
  simpl in He, Hn, Hi.
  exists la, ln. repeat split; try done.
  - by rewrite Hi, Hn.
  - by apply badLatitude_row.
  - by apply badLatitude_row.
  - by apply acceptedRow_row.
  - destruct (acceptedRow_row M markers clock ix la ln i r) as [_ Hnew]; [done|].
    eexists. split; [exact Hnew|]. split; [done|].
    rewrite Hfst, Hn. apply elem_of_app. right.
    apply (elem_of_concat_imap _ rs i r); [done|].
    rewrite Hnew. apply list_elem_of_here.
Qed.

(** On a file of three rows whose second latitude is a word: one error, and
    the two other rows are in the state. *)
Lemma import_row_errors_witness :
  ∃ acc, importRows RefMath.lib [] Sample.clock Sample.oneBadRow = Some acc
    ∧ errors acc = ["Row 3: invalid lat/lng (north, 4)"]
    ∧ map position (fst (onFileSelected RefMath.lib [] Sample.clock Sample.oneBadRow))
      = [(1, 2); (5, 6)]%float
    ∧ fst (onFileSelected RefMath.lib [] Sample.clock Sample.oneBadRow)
      = [] ++ newMarkers acc.
Proof.
  eexists. split; [vm_compute; reflexivity|].
  split; [vm_compute; reflexivity|].
  split; [vm_compute; reflexivity|].
  destruct (import_row_errors_do_not_abort
              RefMath.lib [] Sample.clock Sample.oneBadRow _
              ltac:(vm_compute; reflexivity))
    as (la & ln & _ & _ & H & _).
  exact H.
Defined.

(** ** Defaults of an imported marker *)

(** C9, amended.  A row with valid coordinates that duplicates no marker of
    the state and whose title cell is empty or missing adds one marker whose
    title is Imported Marker and whose description is the description cell
    of the row (hence empty when that cell is empty or missing); a marker
    added by handleAddMarker has the title New Marker and an empty
    description. *)
Theorem import_default_title M (markers : list marker) clock ix la ln acc r i :
  acceptedRow M markers la ln r = true →
  noTitle ix r = true →
  ∃ nm,
    rowBody M markers clock ix la ln acc r i
    = {| imported := S (imported acc); errors := errors acc;
         newMarkers := newMarkers acc ++ [nm] |}
    ∧ title nm = "Imported Marker"
    ∧ description nm = descCell ix r
    ∧ (descCell ix r = "" → description nm = "")
    ∧ (∀ now ms lat lng nm',
         handleAddMarker M now ms lat lng = (ms ++ [nm'], None) →
         title nm' = "New Marker" ∧ description nm' = "").
Proof.
  intros Hacc Hno.
  destruct (acceptedRow_row M markers clock ix la ln i r Hacc) as [He Hn].
  rewrite rowBody_adds, He, Hn. simpl. rewrite app_nil_r, Nat.add_1_r.
  eexists. split; [reflexivity|]. simpl.
  split; [|split; [apply orElse_empty|split]].
  - unfold noTitle in Hno. destruct (idx.title ix) as [j|]; [|done].
    unfold falsy in Hno.
    destruct (r !! j) as [s|]; [|done]. unfold orElse. by rewrite Hno.
  - intros ->. apply orElse_empty.
  - intros now ms lat lng nm'. unfold handleAddMarker.
    destruct (invalidLatLng lat lng); [done|].
    destruct (isDuplicate M ms lat lng); [done|].
    intros [= H]. apply app_inv_head in H.
    injection H as H. subst nm'. by split.
Qed.

Lemma import_default_title_witness :
  ∃ nm,
    rowBody RefMath.lib [] Sample.clock
      (headerIndices ["Title"; "Description"; "Latitude"; "Longitude"]) 2 3
      emptyAcc [""; ""; "1"; "2"] 0
    = {| imported := 1; errors := []; newMarkers := [] ++ [nm] |}
    ∧ title nm = "Imported Marker"
    ∧ description nm = "".
Proof.
  destruct (import_default_title RefMath.lib [] Sample.clock
              (headerIndices ["Title"; "Description"; "Latitude"; "Longitude"])
              2 3 emptyAcc [""; ""; "1"; "2"] 0
              ltac:(vm_compute; reflexivity) ltac:(vm_compute; reflexivity))
    as (nm & H1 & H2 & _ & H3 & _).
  exists nm. split; [exact H1|]. split; [exact H2|].
  apply H3. reflexivity.
Defined.

(** C9, as stated, fails on a row with valid coordinates, no title and the
    description hello: the marker made from it keeps that description. *)
Lemma import_default_title_counterexample :
  rows (parseCSV Sample.untitledRow) = [[""; "hello"; "1"; "2"]]
  ∧ acceptedRow RefMath.lib [] 2 3 [""; "hello"; "1"; "2"] = true
  ∧ noTitle (headerIndices (headers (parseCSV Sample.untitledRow)))
      [""; "hello"; "1"; "2"] = true
  ∧ ∃ nm, fst (onFileSelected RefMath.lib [] Sample.clock Sample.untitledRow) = [nm]
      ∧ title nm = "Imported Marker"
      ∧ description nm = "hello"
      ∧ description nm ≠ "".
Proof.
  split; [vm_compute; reflexivity|].
  split; [vm_compute; reflexivity|].
  split; [vm_compute; reflexivity|].
  eexists. split; [vm_compute; reflexivity|].
  split; [reflexivity|]. split; [reflexivity|]. done.
Qed.

(** The parser on quoted fields: a comma inside quotes is kept, a doubled
    quote inside a field gives one quote, but an empty quoted field is read
    as one double quote (the doubled-quote test comes first). *)
Example parseRow_quoted_fields :
  parseRow (quoted "a,b" +:+ "," +:+ quoted Sample.quotedWord +:+ ",1")
  = ["a,b"; Sample.quotedWord; "1"]
  ∧ parseRow (quoted "" +:+ ",1") = [str1 Chr.dquote; "1"].
Proof. split; vm_compute; reflexivity. Qed.

(** ** Duplicates inside one import *)

(** A row at the position of a marker of the state is skipped. *)
Example import_rejects_existing_duplicate :
  onFileSelected RefMath.lib [Sample.clicked] Sample.clock Sample.twoEqualRows
  = ([Sample.clicked],
     Some (AlertImport
             ("Import complete. 0 markers added." +:+ str1 Chr.LF
              +:+ "Warnings:" +:+ str1 Chr.LF
              +:+ "Row 2: duplicate marker skipped" +:+ str1 Chr.LF
              +:+ "Row 3: duplicate marker skipped"))).
Proof. vm_compute. reflexivity. Qed.


(** The duplicate test of the import reads the markers of the state only:
    a row within the threshold of one of them is rejected with the duplicate
    message (lemma duplicate_row), but a row is never compared with the rows
    accepted before it in the same file (lemma rowBody_adds). *)

(** C1 on a failing input: a file of two rows at the same position, read
    into an empty state, adds both rows; the two markers added have the same
    position, which the duplicate test rejects against either of them. *)
Theorem import_keeps_batch_duplicates :
  ∃ a b,
    onFileSelected RefMath.lib [] Sample.clock Sample.twoEqualRows
    = ([a; b], Some (AlertImport "Import complete. 2 markers added."))
    ∧ position a = (1, 2)%float ∧ position b = (1, 2)%float
    ∧ isDuplicate RefMath.lib [a] (fst (position b)) (snd (position b)) = true
    ∧ distanceMeters RefMath.lib 1 2 1 2 = 0%float.
Proof.
  do 2 eexists. split; [vm_compute; reflexivity|].
  repeat split; vm_compute; reflexivity.
Qed.

(** Whatever the implementation of Math and the state, two equal rows that
    the state accepts are both added. *)
Lemma import_accepts_equal_rows M (markers : list marker) clock ix la ln r i j :
  acceptedRow M markers la ln r = true →
  ∃ a b, rowMarkers M markers clock ix la ln i r = [a]
         ∧ rowMarkers M markers clock ix la ln j r = [b]
         ∧ position a = position b.
Proof.
  intros Hacc.
  destruct (acceptedRow_row M markers clock ix la ln i r Hacc) as [_ Hi].
  destruct (acceptedRow_row M markers clock ix la ln j r Hacc) as [_ Hj].
  do 2 eexists. by rewrite Hi, Hj.
Qed.

(** ** Marker ids *)

(** A row that the import accepts gets the clock plus its index as id, and
    a click that adds a marker gets the clock: a click made while the clock
    shows the id of an imported marker repeats that id. *)
Lemma click_repeats_imported_id M (markers ms : list marker) clock ix la ln i r
    lat lng :
  acceptedRow M markers la ln r = true →
  invalidLatLng lat lng = false →
  isDuplicate M ms lat lng = false →
  ∃ a b,
    rowMarkers M markers clock ix la ln i r = [a]
    ∧ AddMarker_click M false (clock i + numOfNat i)%float ms lat lng
      = (ms ++ [b], None)
    ∧ id a = id b.
Proof.
  intros Hacc Hvalid Hdup.
  destruct (acceptedRow_row M markers clock ix la ln i r Hacc) as [_ Hn].
  unfold AddMarker_click, handleAddMarker. rewrite Hdup, Hvalid.
  do 2 eexists. split; [exact Hn|]. split; reflexivity.
Qed.

(** C6 on a failing input: a file of three rows is read while the clock
    shows 1700000000000, so its rows get the ids 1700000000000,
    1700000000001 and 1700000000002; a click two milliseconds later gets the
    id 1700000000002 again, for a marker at another position. *)
Theorem ids_collide_after_import :
  ∃ a b c d,
    run RefMath.lib []
      [FileLoaded Sample.threeRows Sample.clock;
       MapClick 40 40 1700000000002%float]
    = [a; b; c; d]
    ∧ id c = id d
    ∧ position c = (5, 6)%float ∧ position d = (40, 40)%float.
Proof.
  do 4 eexists. split; [vm_compute; reflexivity|].
  repeat split; vm_compute; reflexivity.
Qed.

(** ** The text of a number *)

Lemma allChars_app p (s t : string) :
  allChars p (s +:+ t) = allChars p s && allChars p t.
Proof.
  induction s as [|c s IH]; [done|].
  rewrite sapp_cons. simpl. by rewrite IH, andb_assoc.
Qed.

Lemma allChars_substring p (s : string) : ∀ n m,
  allChars p s = true → allChars p (String.substring n m s) = true.
Proof.
  induction s as [|c s IH]; intros n m Hs.
  - by destruct n, m.
  - simpl in Hs. apply andb_prop in Hs as [Hc Hs].
    destruct n as [|n]; simpl.
    + destruct m as [|m]; [done|]. simpl. rewrite Hc. by apply IH.
    + by apply IH.
Qed.

Lemma plainChar_digitChar d :
  (0 <= d < 10)%Z → plainChar (JSNumber.digitChar d) = true.
Proof.
  intros Hd.
  assert (d = 0 ∨ d = 1 ∨ d = 2 ∨ d = 3 ∨ d = 4 ∨ d = 5 ∨ d = 6 ∨ d = 7
          ∨ d = 8 ∨ d = 9)%Z as Hcases by lia.
  repeat (destruct Hcases as [->|Hcases]; [reflexivity|]). by subst d.
Qed.

Lemma plain_digitsFuel fuel : ∀ n acc,
  (0 <= n)%Z → allChars plainChar acc = true →
  allChars plainChar (JSNumber.digitsFuel fuel n acc) = true.
Proof.
  induction fuel as [|fuel IH]; intros n acc Hn Hacc; simpl; [done|].
  destruct (n <? 10)%Z eqn:E.
  - simpl. rewrite Hacc, plainChar_digitChar; [done|]. lia.
  - apply IH.
    + apply Z.div_pos; lia.
    + simpl. rewrite Hacc, plainChar_digitChar; [done|].
      apply Z.mod_pos_bound. lia.
Qed.

Lemma digitsFuel_nonempty fuel : ∀ n acc,
  (acc ≠ "" ∨ fuel ≠ 0%nat) → JSNumber.digitsFuel fuel n acc ≠ "".
Proof.
  induction fuel as [|fuel IH]; intros n acc Hne; simpl.
  - by destruct Hne.
  - destruct (n <? 10)%Z; [done|]. apply IH. by left.
Qed.

Lemma plain_digits n :
  (0 <= n)%Z →
  allChars plainChar (JSNumber.digits n) = true ∧ JSNumber.digits n ≠ "".
Proof.
  intros Hn. unfold JSNumber.digits. split.
  - by apply plain_digitsFuel.
  - apply digitsFuel_nonempty. by right.
Qed.

Lemma plain_zeros n : allChars plainChar (JSNumber.zeros n) = true.
Proof. induction n as [|n IH]; [done|]. simpl. by rewrite IH. Qed.

Lemma sapp_nonempty_l (s t : string) : s ≠ "" → s +:+ t ≠ "".
Proof. by destruct s. Qed.

Lemma plain_formatDigits s n :
  (0 <= s)%Z →
  allChars plainChar (JSNumber.formatDigits s n) = true
  ∧ JSNumber.formatDigits s n ≠ "".
Proof.
  intros Hs. destruct (plain_digits s Hs) as [Hp Hne].
  unfold JSNumber.formatDigits.
  set (ds := JSNumber.digits s) in *.
  set (k := Z.of_nat (String.length ds)).
  destruct ((k <=? n)%Z && (n <=? 21)%Z).
  { split; [|by apply sapp_nonempty_l].
    by rewrite allChars_app, Hp, plain_zeros. }
  destruct ((0 <? n)%Z && (n <=? 21)%Z).
  { split.
    - rewrite !allChars_app, !allChars_substring by done. done.
    - destruct (String.substring 0 (Z.to_nat n) ds); done. }
  destruct ((-6 <? n)%Z && (n <=? 0)%Z).
  { split; [|done]. by rewrite !allChars_app, Hp, plain_zeros. }
  cbv zeta.
  assert (allChars plainChar (if (n - 1 <? 0)%Z then "-" else "+") = true)
    as Hsign by (by destruct (n - 1 <? 0)%Z).
  destruct (plain_digits (Z.abs (n - 1))) as [He _]; [lia|].
  destruct ds as [|d [|d2 rest]]; [done| |];
    (split; [|done]); rewrite !allChars_app, Hsign, He; simpl in Hp |- *.
  - apply andb_prop in Hp as [-> _]. done.
  - apply andb_prop in Hp as [-> Hp]. rewrite Hp. done.
Qed.

Lemma scaled_nonneg P Q e :
  (0 < P)%Z → (0 < Q)%Z →
  (0 <= (if (0 <=? e)%Z then P * 10 ^ e else P)
        / (if (0 <=? e)%Z then Q else Q * 10 ^ (- e)))%Z.
Proof.
  intros HP HQ.
  pose proof (Z.pow_nonneg 10 e ltac:(lia)).
  apply Z.div_pos; destruct (0 <=? e)%Z eqn:E; nia.
Qed.

Lemma shortest_nonneg fuel : ∀ k x P Q n,
  (0 < P)%Z → (0 < Q)%Z → (0 <= fst (JSNumber.shortest fuel k x P Q n))%Z.
Proof.
  induction fuel as [|fuel IH]; intros k x P Q n HP HQ; simpl;
    pose proof (scaled_nonneg P Q (k - n) HP HQ) as Hlo;
    pose proof (Z.pow_nonneg 10 (k - 1) ltac:(lia)) as Hpow;
    repeat match goal with
           | |- context [if ?b then _ else _] =>
               lazymatch b with
               | (0 <=? _)%Z => fail
               | _ => destruct b
               end
           | |- context [match ?c with Lt => _ | _ => _ end] => destruct c
           end; simpl; try lia; by apply IH.
Qed.

(** The text of a number is a plain, non-empty cell. *)
Lemma plain_toString x :
  allChars plainChar (JSNumber.toString x) = true ∧ JSNumber.toString x ≠ "".
Proof.
  unfold JSNumber.toString.
  destruct (Prim2SF x) as [sz|si| |neg m e]; try done.
  - by destruct si.
  - set (P := if (0 <=? e)%Z then (Z.pos m * 2 ^ e)%Z else Z.pos m).
    set (Q := if (0 <=? e)%Z then 1%Z else (2 ^ (- e))%Z).
    assert (0 < P)%Z as HP.
    { unfold P. destruct (0 <=? e)%Z eqn:E; [|lia].
      apply Z.mul_pos_pos; [lia|]. apply Z.pow_pos_nonneg; lia. }
    assert (0 < Q)%Z as HQ.
    { unfold Q. destruct (0 <=? e)%Z eqn:E; [lia|].
      apply Z.pow_pos_nonneg; lia. }
    pose proof (shortest_nonneg 16 1 (PrimFloat.abs x) P Q
                  (JSNumber.magnitude P Q) HP HQ) as Hs.
    destruct (JSNumber.shortest 16 1 (PrimFloat.abs x) P Q
                (JSNumber.magnitude P Q)) as [s n].
    simpl in Hs. destruct (plain_formatDigits s n Hs) as [Hp Hne].
    destruct neg; [|done]. split; [|done].
    by rewrite allChars_app, Hp.
Qed.

(** ** Lines of the exported text *)

Lemma split_lines_cons c (s : string) :
  split_lines (String c s)
  = let keep :=
      match split_lines s with
      | p :: ps => String c p :: ps
      | [] => [str1 c]
      end in
    if Ascii.eqb c Chr.LF then "" :: split_lines s
    else if Ascii.eqb c Chr.CR then
      match s with
      | String c2 s'' =>
          if Ascii.eqb c2 Chr.LF then "" :: split_lines s'' else keep
      | EmptyString => keep
      end
    else keep.
Proof. reflexivity. Qed.

Lemma split_lines_line (s rest : string) :
  noLF s = true → endsWithCR s = false →
  split_lines (s +:+ String Chr.LF rest) = s :: split_lines rest.
Proof.
  induction s as [|c s IH]; intros Hlf Hcr.
  - reflexivity.
  - simpl in Hlf. apply andb_prop in Hlf as [Hc Hlf].
    apply negb_true_iff in Hc.
    rewrite sapp_cons, split_lines_cons. cbv zeta.
    rewrite Hc, IH; [|done|by destruct s].
    destruct (Ascii.eqb c Chr.CR) eqn:Ecr; [|done].
    destruct s as [|c2 s]; [simpl in Hcr; congruence|].
    rewrite sapp_cons. simpl in Hlf.
    apply andb_prop in Hlf as [Hc2 _]. apply negb_true_iff in Hc2.
    by rewrite Hc2.
Qed.

Lemma split_lines_last (s : string) : noLF s = true → split_lines s = [s].
Proof.
  induction s as [|c s IH]; intros Hlf; [done|].
  simpl in Hlf. apply andb_prop in Hlf as [Hc Hlf].
  apply negb_true_iff in Hc.
  rewrite split_lines_cons. cbv zeta. rewrite Hc, IH by done.
  destruct (Ascii.eqb c Chr.CR); [|done].
  destruct s as [|c2 s]; [done|].
  simpl in Hlf. apply andb_prop in Hlf as [Hc2 _]. apply negb_true_iff in Hc2.
  by rewrite Hc2.
Qed.

Lemma split_lines_rows (ms : list marker) : ∀ header,
  noLF header = true → endsWithCR header = false →
  Forall (fun m => noLF (rowText m) = true ∧ endsWithCR (rowText m) = false) ms →
  split_lines (header +:+ rowsText ms) = header :: map rowText ms.
Proof.
  induction ms as [|m ms IH]; intros header Hlf Hcr Hrows.
  - simpl. rewrite sapp_nil_r. by apply split_lines_last.
  - apply Forall_cons in Hrows as [[Hm1 Hm2] Hrows].
    simpl rowsText. rewrite str1_app, split_lines_line by done.
    by rewrite IH.
Qed.

Lemma trim_nonblank c (s : string) :
  is_ws c = false → (0 <? String.length (trim (String c s)))%nat = true.
Proof.
  intros Hc. unfold trim. simpl trimStart. rewrite Hc. simpl.
  rewrite Hc. by destruct (trimEnd s).
Qed.

(** ** Fields of an exported row *)

Lemma splitFields_cons cur inQuotes values ch (rest : string) :
  splitFields cur inQuotes values (String ch rest)
  = if Ascii.eqb ch Chr.dquote then
      match rest with
      | String ch2 rest2 =>
          if Ascii.eqb ch2 Chr.dquote
          then splitFields (cur +:+ str1 Chr.dquote) inQuotes values rest2
          else splitFields cur (negb inQuotes) values rest
      | EmptyString => splitFields cur (negb inQuotes) values rest
      end
    else if Ascii.eqb ch Chr.comma && negb inQuotes
    then splitFields "" inQuotes (values ++ [cur]) rest
    else splitFields (cur +:+ str1 ch) inQuotes values rest.
Proof. reflexivity. Qed.

Lemma sapp_str1 (cur : string) c (s : string) :
  (cur +:+ str1 c) +:+ s = cur +:+ String c s.
Proof. by rewrite sapp_assoc. Qed.

Ltac snorm :=
  unfold str1; repeat rewrite ?sapp_cons, ?sapp_nil_l, ?sapp_assoc, ?sapp_nil_r.

(** Inside quotes: the escaped text, then the closing quote. *)
Lemma splitFields_escaped (s : string) : ∀ cur values tail,
  startsWithQuote tail = false →
  splitFields cur true values
    (replaceAll Chr.dquote (String Chr.dquote (str1 Chr.dquote)) s
     +:+ String Chr.dquote tail)
  = splitFields (cur +:+ s) false values tail.
Proof.
  induction s as [|c s IH]; intros cur values tail Htail.
  - simpl replaceAll. snorm. rewrite splitFields_cons, Ascii.eqb_refl.
    destruct tail as [|c2 tail]; [done|]. simpl in Htail. by rewrite Htail.
  - simpl replaceAll. destruct (Ascii.eqb c Chr.dquote) eqn:E.
    + apply Ascii.eqb_eq in E as ->. snorm.
      rewrite splitFields_cons, !Ascii.eqb_refl.
      fold (str1 Chr.dquote). rewrite IH by done. by snorm.
    + snorm. rewrite splitFields_cons, E.
      replace (Ascii.eqb c Chr.comma && negb true) with false
        by (by rewrite andb_false_r).
      fold (str1 c). fold (str1 Chr.dquote). rewrite IH by done. by snorm.
Qed.

(** A quoted field outside quotes, when the text has a character other than
    the double quote. *)
Lemma splitFields_quoted (s : string) : ∀ cur values tail,
  hasNonQuote s = true → startsWithQuote tail = false →
  splitFields cur false values (quoted s +:+ tail)
  = splitFields (cur +:+ s) false values tail.
Proof.
  unfold quoted.
  induction s as [|c s IH]; intros cur values tail Hs Htail; [done|].
  simpl replaceAll. simpl in Hs.
  destruct (Ascii.eqb c Chr.dquote) eqn:E.
  - apply Ascii.eqb_eq in E as ->. simpl in Hs.
    specialize (IH (cur +:+ str1 Chr.dquote) values tail Hs Htail).
    revert IH. snorm. intros IH.
    rewrite splitFields_cons, !Ascii.eqb_refl. exact IH.
  - pose proof (splitFields_escaped (String c s) cur values tail Htail) as H.
    simpl replaceAll in H. rewrite E in H. revert H. snorm. intros H.
    rewrite splitFields_cons, Ascii.eqb_refl, E. exact H.
Qed.

(** A cell without quotes nor commas. *)
Lemma splitFields_plain (s : string) : ∀ cur values tail,
  allChars plainChar s = true →
  splitFields cur false values (s +:+ tail)
  = splitFields (cur +:+ s) false values tail.
Proof.
  induction s as [|c s IH]; intros cur values tail Hs.
  - by rewrite sapp_nil_l, sapp_nil_r.
  - simpl in Hs. apply andb_prop in Hs as [Hc Hs].
    unfold plainChar in Hc. apply negb_true_iff in Hc.
    apply orb_false_elim in Hc as [Hc Hcomma].
    apply orb_false_elim in Hc as [_ Hq].
    rewrite sapp_cons, splitFields_cons, Hq, Hcomma. simpl.
    rewrite IH by done. by rewrite sapp_str1.
Qed.

Lemma splitFields_comma cur values (tail : string) :
  splitFields cur false values (String Chr.comma tail)
  = splitFields "" false (values ++ [cur]) tail.
Proof. reflexivity. Qed.

Lemma trimEnd_plain (s : string) :
  allChars (fun c => negb (is_ws c)) s = true → trimEnd s = s.
Proof.
  induction s as [|c s IH]; intros Hs; [done|].
  simpl in Hs. apply andb_prop in Hs as [Hc Hs]. apply negb_true_iff in Hc.
  simpl. rewrite IH, Hc by done. by destruct s.
Qed.

Lemma allChars_impl (p q : ascii → bool) (s : string) :
  (∀ c, p c = true → q c = true) → allChars p s = true → allChars q s = true.
Proof.
  intros Hpq. induction s as [|c s IH]; [done|]. simpl.
  intros [Hc Hs]%andb_prop. by rewrite (Hpq c Hc), IH.
Qed.

Lemma plainChar_not_ws c : plainChar c = true → negb (is_ws c) = true.
Proof.
  unfold plainChar. intros H. apply negb_true_iff in H.
  apply orb_false_elim in H as [H _]. apply orb_false_elim in H as [-> _]. done.
Qed.

Lemma trim_plain (s : string) : allChars plainChar s = true → trim s = s.
Proof.
  intros Hs. apply (allChars_impl _ _ _ plainChar_not_ws) in Hs.
  unfold trim.
  assert (trimStart s = s) as ->.
  { destruct s as [|c s]; [done|]. simpl in *.
    apply andb_prop in Hs as [Hc _]. apply negb_true_iff in Hc. by rewrite Hc. }
  by apply trimEnd_plain.
Qed.

Lemma noLF_app (s t : string) : noLF (s +:+ t) = noLF s && noLF t.
Proof.
  induction s as [|c s IH]; [done|].
  rewrite sapp_cons. simpl. by rewrite IH, andb_assoc.
Qed.

Lemma noLF_plain (s : string) : allChars plainChar s = true → noLF s = true.
Proof.
  induction s as [|c s IH]; [done|]. simpl.
  intros [Hc Hs]%andb_prop. rewrite IH by done.
  apply plainChar_not_ws in Hc. apply negb_true_iff in Hc.
  destruct (Ascii.eqb c Chr.LF) eqn:E; [|done].
  apply Ascii.eqb_eq in E as ->. done.
Qed.

Lemma noLF_quoted (s : string) : noLF s = true → noLF (quoted s) = true.
Proof.
  intros Hs. unfold quoted. rewrite !noLF_app. simpl.
  rewrite andb_true_r.
  induction s as [|c s IH]; [done|].
  simpl in Hs. apply andb_prop in Hs as [Hc Hs].
  simpl. rewrite noLF_app, IH, andb_true_r by done.
  destruct (Ascii.eqb c Chr.dquote); [done|]. simpl. by rewrite Hc.
Qed.

Lemma endsWithCR_app (s t : string) :
  t ≠ "" → endsWithCR (s +:+ t) = endsWithCR t.
Proof.
  intros Ht. induction s as [|c s IH]; [done|].
  rewrite sapp_cons. simpl. rewrite IH.
  destruct (s +:+ t) eqn:E; [|done].
  destruct s; [by rewrite sapp_nil_l in E|done].
Qed.

Lemma knownCategory_cases c :
  knownCategory c = true →
  c = "General" ∨ c = "Restaurant" ∨ c = "College" ∨ c = "Event" ∨ c = "Shop".
Proof.
  intros H%knownCategory_iff. simpl in H.
  repeat (apply elem_of_cons in H as [->|H]; [tauto|]).
  by apply elem_of_nil in H.
Qed.

(** What a stable marker gives the export and the import. *)
Lemma stableText_inv (s : string) :
  stableText s = true → hasNonQuote s = true ∧ noLF s = true ∧ trim s = s.
Proof.
  unfold stableText. intros [[H1 H2]%andb_prop H3]%andb_prop.
  by apply String.eqb_eq in H3.
Qed.

Lemma hasNonQuote_nonempty (s : string) : hasNonQuote s = true → s ≠ "".
Proof. by destruct s. Qed.

Lemma rowText_line m :
  stableMarker m →
  noLF (rowText m) = true ∧ endsWithCR (rowText m) = false.
Proof.
  intros (Ht & Hd & (c & Hc & Hk) & _).
  apply stableText_inv in Ht as (_ & Ht & _).
  apply stableText_inv in Hd as (_ & Hd & _).
  destruct (plain_toString (fst (position m))) as [Hlat _].
  destruct (plain_toString (snd (position m))) as [Hlng _].
  unfold rowText. rewrite Hc.
  assert (orElse (Some c) "" = c ∧ noLF c = true ∧ endsWithCR c = false
          ∧ c ≠ "") as (-> & Hc1 & Hc2 & Hc3).
  { destruct (knownCategory_cases c Hk) as [->|[->|[->|[->| ->]]]]; done. }
  split.
  - rewrite !noLF_app, (noLF_quoted _ Ht), (noLF_quoted _ Hd),
      (noLF_plain _ Hlat), (noLF_plain _ Hlng), Hc1. done.
  - rewrite <- !sapp_assoc. by rewrite endsWithCR_app.
Qed.

Lemma comma_sapp (s : string) : "," +:+ s = String Chr.comma s.
Proof. reflexivity. Qed.

Lemma quoted_starts (s t : string) :
  ∃ u, quoted s +:+ t = String Chr.dquote u.
Proof. unfold quoted. snorm. by eexists. Qed.

Lemma splitFields_quoted_comma (s cur : string) values (t : string) :
  hasNonQuote s = true →
  splitFields cur false values (quoted s +:+ String Chr.comma t)
  = splitFields "" false (values ++ [cur +:+ s]) t.
Proof.
  intros Hs.
  by rewrite (splitFields_quoted s cur values (String Chr.comma t) Hs eq_refl).
Qed.

Lemma splitFields_plain_comma (s cur : string) values (t : string) :
  allChars plainChar s = true →
  splitFields cur false values (s +:+ String Chr.comma t)
  = splitFields "" false (values ++ [cur +:+ s]) t.
Proof. intros Hs. by rewrite (splitFields_plain s cur values _ Hs). Qed.

(** The row of a stable marker is read back as its cells. *)
Lemma parseRow_rowText m : stableMarker m → parseRow (rowText m) = cellsOf m.
Proof.
  intros (Ht & Hd & (c & Hc & Hk) & _).
  apply stableText_inv in Ht as (Ht1 & _ & Ht2).
  apply stableText_inv in Hd as (Hd1 & _ & Hd2).
  destruct (plain_toString (fst (position m))) as [Hlat _].
  destruct (plain_toString (snd (position m))) as [Hlng _].
  unfold parseRow, rowText, cellsOf. rewrite Hc.
  assert (orElse (Some c) "" = c ∧ allChars plainChar c = true)
    as (-> & Hcp).
  { destruct (knownCategory_cases c Hk) as [->|[->|[->|[->| ->]]]]; done. }
  rewrite !comma_sapp.
  rewrite (splitFields_quoted_comma _ _ _ _ Ht1), sapp_nil_l.
  rewrite (splitFields_quoted_comma _ _ _ _ Hd1), sapp_nil_l.
  rewrite (splitFields_plain_comma _ _ _ _ Hlat), sapp_nil_l.
  rewrite (splitFields_plain_comma _ _ _ _ Hlng), sapp_nil_l.
  rewrite <- (sapp_nil_r c) at 1.
  rewrite (splitFields_plain _ _ _ _ Hcp), sapp_nil_l.
  cbn [splitFields app map].
  by rewrite Ht2, Hd2, (trim_plain _ Hlat), (trim_plain _ Hlng),
    (trim_plain _ Hcp).
Qed.

Lemma filter_all {A} (p : A → bool) (l : list A) :
  Forall (fun x => p x = true) l → List.filter p l = l.
Proof. induction 1 as [|x l Hx _ IH]; simpl; [done|]. by rewrite Hx, IH. Qed.

(** The export of stable markers is parsed into the five headers and the
    cells of each marker. *)
Lemma parseCSV_export (ms : list marker) :
  Forall stableMarker ms →
  parseCSV (markersToCSVString ms)
  = {| headers := csvHeaders; rows := map cellsOf ms |}.
Proof.
  intros Hms. rewrite markersToCSVString_text.
  unfold parseCSV. rewrite split_lines_rows; [|done|done|].
  2:{ eapply Forall_impl; [exact Hms|]. intros m; apply rowText_line. }
  rewrite filter_all.
  2:{ constructor; [done|]. apply Forall_forall. intros l Hl.
      apply list_elem_of_In, in_map_iff in Hl as (m & <- & _).
      unfold rowText. destruct (quoted_starts (title m)
        ("," +:+ quoted (description m) +:+ "," +:+
         JSNumber.toString (fst (position m)) +:+ "," +:+
         JSNumber.toString (snd (position m)) +:+ "," +:+
         orElse (category m) "")) as [u ->].
      by apply trim_nonblank. }
  f_equal.
  rewrite <- list_fmap_compose. apply list_fmap_ext.
  intros i m Hm. simpl. apply parseRow_rowText.
  rewrite Forall_forall in Hms. apply Hms. by eapply list_elem_of_lookup_2.
Qed.

Lemma orElse_nonempty (s d : string) : s ≠ "" → orElse (Some s) d = s.
Proof.
  intros Hs. unfold orElse. destruct (String.eqb s "") eqn:E; [|done].
  by apply String.eqb_eq in E.
Qed.

Lemma headerIndices_csv :
  headerIndices csvHeaders
  = {| idx.title := Some 0; idx.desc := Some 1; idx.lat := Some 2;
       idx.lng := Some 3; idx.cat := Some 4 |}.
Proof. vm_compute. reflexivity. Qed.

(** The cells of a stable marker are accepted by an import into an empty
    state, and the marker made from them has the fields of the marker. *)
Lemma cellsOf_imported M clock i m :
  stableMarker m →
  ∃ nm, rowMarkers M [] clock (headerIndices csvHeaders) 2 3 i (cellsOf m) = [nm]
        ∧ rowErrors M [] clock (headerIndices csvHeaders) 2 3 i (cellsOf m) = []
        ∧ tupleOf nm = tupleOf m
        ∧ id nm = (clock i + numOfNat i)%float.
Proof.
  intros (Ht & Hd & (c & Hc & Hk) & Hvalid & Hlat & Hlng).
  apply stableText_inv in Ht as (Ht%hasNonQuote_nonempty & _).
  apply stableText_inv in Hd as (Hd%hasNonQuote_nonempty & _).
  destruct (plain_toString (fst (position m))) as [_ Hlat'].
  destruct (plain_toString (snd (position m))) as [_ Hlng'].
  apply String.eqb_neq in Hlat', Hlng'.
  unfold stableNumber in Hlat, Hlng.
  assert (c ≠ "") as Hcne.
  { destruct (knownCategory_cases c Hk) as [->|[->|[->|[->| ->]]]]; done. }
  assert (acceptedRow M [] 2 3 (cellsOf m) = true) as Hacc.
  { unfold acceptedRow.
    change (cellsOf m !! 2) with (Some (JSNumber.toString (fst (position m)))).
    change (cellsOf m !! 3) with (Some (JSNumber.toString (snd (position m)))).
    unfold falsy, numberOfCell.
    rewrite Hlat', Hlng', Hlat, Hlng, Hvalid. reflexivity. }
  destruct (acceptedRow_row M [] clock (headerIndices csvHeaders) 2 3 i
              (cellsOf m) Hacc) as [He Hn].
  eexists. split; [exact Hn|]. split; [exact He|]. split; [|reflexivity].
  unfold tupleOf, descCell. rewrite headerIndices_csv.
  cbn [title description position category idx.title idx.desc idx.cat].
  change (cellsOf m !! 0) with (Some (title m)).
  change (cellsOf m !! 1) with (Some (description m)).
  change (cellsOf m !! 2) with (Some (JSNumber.toString (fst (position m)))).
  change (cellsOf m !! 3) with (Some (JSNumber.toString (snd (position m)))).
  change (cellsOf m !! 4) with (Some (orElse (category m) "")).
  unfold numberOfCell. rewrite Hlat, Hlng, Hc.
  rewrite !(orElse_nonempty (title m)), !(orElse_nonempty (description m)),
    !(orElse_nonempty c), Hk by assumption.
  by destruct (position m).
Qed.

Lemma rows_markers (f : nat → list string → list marker) (ms : list marker) :
  ∀ i0,
  (∀ i m, m ∈ ms →
     ∃ nm, f (i0 + i) (cellsOf m) = [nm] ∧ tupleOf nm = tupleOf m) →
  map tupleOf (concat (imap (fun j => f (i0 + j)) (map cellsOf ms)))
  = map tupleOf ms.
Proof.
  induction ms as [|m ms IH]; intros i0 H; [reflexivity|].
  change (map cellsOf (m :: ms)) with (cellsOf m :: map cellsOf ms).
  rewrite imap_cons. cbn [concat].
  destruct (H 0 m) as (nm & Hf & Ht); [apply list_elem_of_here|].
  rewrite Hf. cbn [app map]. rewrite Ht. f_equal.
  rewrite <- (IH (S i0)).
  - f_equal. f_equal. apply imap_ext. intros j x _. cbn. f_equal. lia.
  - intros i m' Hm'. destruct (H (S i) m') as (nm' & Hf' & Ht');
      [by apply list_elem_of_further|].
    exists nm'. by replace (S i0 + i) with (i0 + S i) by lia.
Qed.

Lemma rows_no_errors {B} (g : nat → list string → list B) (ms : list marker) :
  ∀ i0,
  (∀ i m, m ∈ ms → g (i0 + i) (cellsOf m) = []) →
  concat (imap (fun j => g (i0 + j)) (map cellsOf ms)) = [].
Proof.
  induction ms as [|m ms IH]; intros i0 H; [reflexivity|].
  change (map cellsOf (m :: ms)) with (cellsOf m :: map cellsOf ms).
  rewrite imap_cons. cbn [concat].
  rewrite (H 0 m) by apply list_elem_of_here. cbn [app].
  rewrite <- (IH (S i0)).
  - f_equal. apply imap_ext. intros j x _. cbn. f_equal. lia.
  - intros i m' Hm'.
    replace (S i0 + i) with (i0 + S i) by lia.
    apply H. by apply list_elem_of_further.
Qed.

(** What the export and the import do carry.  For every list of markers
    whose titles and descriptions have a character other than the double
    quote, no line feed and no white space at either end, whose categories
    are of the enumeration, and whose coordinates are finite, in range and
    denoted again by their own text: exporting the list and importing the
    text into an empty state adds one marker per marker of the list, in
    order and without a row error, with the same title, description,
    latitude, longitude and category.  (The ids are new, and the images are
    not in the text.)  The markers with an empty description, those of a
    click among them, are not of this kind: see below. *)
Theorem export_import_roundtrip M clock (ms : list marker) :
  Forall stableMarker ms →
  ∃ acc,
    importRows M [] clock (markersToCSVString ms) = Some acc
    ∧ errors acc = []
    ∧ imported acc = length ms
    ∧ fst (onFileSelected M [] clock (markersToCSVString ms)) = newMarkers acc
    ∧ map tupleOf (newMarkers acc) = map tupleOf ms.
Proof.
  intros Hms.
  assert (importRows M [] clock (markersToCSVString ms)
          = Some (forEachRow M [] clock (headerIndices csvHeaders) 2 3 0
                    (map cellsOf ms) emptyAcc)) as Himp.
  { unfold importRows. rewrite (parseCSV_export ms Hms).
    cbn [headers rows]. by rewrite headerIndices_csv. }
  eexists. split; [exact Himp|].
  destruct (forEachRow_lists M [] clock (headerIndices csvHeaders) 2 3
              (map cellsOf ms) 0 emptyAcc) as (He & Hn & Hi).
  cbn [errors newMarkers imported emptyAcc app] in He, Hn, Hi.
  assert (map tupleOf (newMarkers
            (forEachRow M [] clock (headerIndices csvHeaders) 2 3 0
               (map cellsOf ms) emptyAcc)) = map tupleOf ms) as Htuples.
  { rewrite Hn. apply rows_markers. intros i m Hm.
    rewrite Forall_forall in Hms.
    destruct (cellsOf_imported M clock (0 + i) m (Hms m Hm))
      as (nm & H1 & _ & H3 & _).
    by exists nm. }
  split; [|split; [|split]].
  - rewrite He. apply rows_no_errors. intros i m Hm.
    rewrite Forall_forall in Hms.
    by destruct (cellsOf_imported M clock (0 + i) m (Hms m Hm))
      as (nm & _ & H2 & _).
  - rewrite Hi, <- Hn. cbn [Nat.add].
    rewrite <- (length_map tupleOf), Htuples. apply length_map.
  - by rewrite (onFileSelected_markers _ _ _ _ _ Himp).
  - exact Htuples.
Qed.

Lemma export_import_roundtrip_witness :
  ∃ acc,
    importRows RefMath.lib [] Sample.clock
      (markersToCSVString [Sample.cafe; Sample.inn]) = Some acc
    ∧ errors acc = []
    ∧ imported acc = 2
    ∧ fst (onFileSelected RefMath.lib [] Sample.clock
             (markersToCSVString [Sample.cafe; Sample.inn])) = newMarkers acc
    ∧ map tupleOf (newMarkers acc) = map tupleOf [Sample.cafe; Sample.inn].
Proof.
  apply (export_import_roundtrip RefMath.lib Sample.clock
           [Sample.cafe; Sample.inn]).
  repeat constructor;
    first [ vm_compute; reflexivity
          | eexists; split; [reflexivity | vm_compute; reflexivity] ].
Defined.

(** A field written for an empty text, two double quotes, is read as an
    escaped double quote: the test for a doubled quote comes before the
    test that opens a quoted field. *)
Lemma splitFields_empty_quoted (cur : string) values (t : string) :
  splitFields cur false values (quoted "" +:+ String Chr.comma t)
  = splitFields "" false (values ++ [cur +:+ str1 Chr.dquote]) t.
Proof.
  change (quoted "" +:+ String Chr.comma t)
    with (String Chr.dquote (String Chr.dquote (String Chr.comma t))).
  rewrite splitFields_cons, !Ascii.eqb_refl.
  rewrite splitFields_cons. reflexivity.
Qed.

(** So it is with every marker whose description is empty: its row is read
    back with a double quote for the description. *)
Lemma parseRow_empty_description m c :
  stableText (title m) = true → description m = "" →
  category m = Some c → knownCategory c = true →
  parseRow (rowText m)
  = [ title m; str1 Chr.dquote;
      JSNumber.toString (fst (position m));
      JSNumber.toString (snd (position m)); c ].
Proof.
  intros Ht Hd Hc Hk.
  apply stableText_inv in Ht as (Ht1 & _ & Ht2).
  destruct (plain_toString (fst (position m))) as [Hlat _].
  destruct (plain_toString (snd (position m))) as [Hlng _].
  unfold parseRow, rowText. rewrite Hc, Hd.
  assert (orElse (Some c) "" = c ∧ allChars plainChar c = true)
    as (-> & Hcp).
  { destruct (knownCategory_cases c Hk) as [->|[->|[->|[->| ->]]]]; done. }
  rewrite !comma_sapp.
  rewrite (splitFields_quoted_comma _ _ _ _ Ht1), sapp_nil_l.
  rewrite splitFields_empty_quoted, sapp_nil_l.
  rewrite (splitFields_plain_comma _ _ _ _ Hlat), sapp_nil_l.
  rewrite (splitFields_plain_comma _ _ _ _ Hlng), sapp_nil_l.
  rewrite <- (sapp_nil_r c) at 1.
  rewrite (splitFields_plain _ _ _ _ Hcp), sapp_nil_l.
  cbn [splitFields app map].
  rewrite Ht2, (trim_plain _ Hlat), (trim_plain _ Hlng), (trim_plain _ Hcp).
  reflexivity.
Qed.

(** C3.  The marker that a click on the map at (1, 2) makes does not come
    back from an export and an import into an empty state.  The export
    writes its empty description as two double quotes; the loop of parseCSV
    reads them as an escaped double quote; the import runs through without
    a warning and adds one marker, whose description is a double quote. *)
Theorem export_import_spoils_empty_description :
  fst (AddMarker_click RefMath.lib false 1700000000000 [] 1 2) = [Sample.clicked]
  ∧ markersToCSVString [Sample.clicked]
    = "Title,Description,Latitude,Longitude,Category" +:+ str1 Chr.LF
      +:+ quoted "New Marker" +:+ "," +:+ quoted "" +:+ ",1,2,General"
  ∧ parseRow (quoted "New Marker" +:+ "," +:+ quoted "" +:+ ",1,2,General")
    = ["New Marker"; str1 Chr.dquote; "1"; "2"; "General"]
  ∧ snd (onFileSelected RefMath.lib [] Sample.clock
           (markersToCSVString [Sample.clicked]))
    = Some (AlertImport "Import complete. 1 markers added.")
  ∧ map tupleOf
      (fst (onFileSelected RefMath.lib [] Sample.clock
              (markersToCSVString [Sample.clicked])))
    = [("New Marker", str1 Chr.dquote, (1, 2)%float, Some "General")]
  ∧ map tupleOf [Sample.clicked]
    = [("New Marker", "", (1, 2)%float, Some "General")]
  ∧ tupleOf Sample.clicked
    ∉ map tupleOf
        (fst (onFileSelected RefMath.lib [] Sample.clock
                (markersToCSVString [Sample.clicked]))).
Proof.
  assert (map tupleOf
            (fst (onFileSelected RefMath.lib [] Sample.clock
                    (markersToCSVString [Sample.clicked])))
          = [("New Marker", str1 Chr.dquote, (1, 2)%float, Some "General")])
    as Himp by (vm_compute; reflexivity).
  split; [vm_compute; reflexivity|]. split; [vm_compute; reflexivity|].
  split; [vm_compute; reflexivity|]. split; [vm_compute; reflexivity|].
  split; [exact Himp|]. split; [reflexivity|].
  rewrite Himp. intros H.
  apply list_elem_of_singleton in H. discriminate H.
Qed.

(** * Further properties of the marker store *)

Lemma orElse_ne (x : option string) (d : string) : d ≠ "" → orElse x d ≠ "".
Proof.
  intros Hd. unfold orElse. destruct x as [s|]; [|exact Hd].
  destruct (String.eqb s "") eqn:E; [exact Hd|].
  intros ->. discriminate.
Qed.

Lemma sublist_List_filter {A} (p : A → bool) (l : list A) :
  sublist (List.filter p l) l.
Proof.
  induction l as [|x l IH]; cbn [List.filter]; [constructor|].
  destruct (p x); [apply sublist_skip|apply sublist_cons]; exact IH.
Qed.

Lemma elem_of_List_filter {A} (p : A → bool) (l : list A) x :
  x ∈ List.filter p l ↔ x ∈ l ∧ p x = true.
Proof. rewrite !list_elem_of_In. apply filter_In. Qed.

Lemma sublist_List_filter_impl {A} (p q : A → bool) (l : list A) :
  (∀ x, p x = true → q x = true) →
  sublist (List.filter p l) (List.filter q l).
Proof.
  intros Hpq. induction l as [|x l IH]; cbn [List.filter]; [constructor|].
  destruct (p x) eqn:Hp.
  - rewrite (Hpq x Hp). apply sublist_skip. exact IH.
  - destruct (q x); [apply sublist_cons|]; exact IH.
Qed.

Lemma length_List_filter_negb {A} (p : A → bool) (l : list A) :
  (length (List.filter (fun x => negb (p x)) l) + length (List.filter p l)
   = length l)%nat.
Proof.
  induction l as [|x l IH]; cbn [List.filter length]; [reflexivity|].
  destruct (p x); cbn [negb length]; lia.
Qed.

Lemma length_filter_cons {A} (p : A → bool) x (l : list A) :
  length (List.filter p (x :: l))
  = ((if p x then 1 else 0) + length (List.filter p l))%nat.
Proof. cbn [List.filter]. destruct (p x); reflexivity. Qed.

Lemma hasKnownCategory_OK m : hasKnownCategory m = true → categoryOK m = true.
Proof.
  unfold hasKnownCategory, categoryOK.
  destruct (category m); [intros H; exact H|discriminate].
Qed.

Section RunFacts.
Variable M : MathLib.

(** A click leaves the markers as they are or adds one marker at the
    position of the click, which is no duplicate of the markers. *)
Lemma click_step (markers : list marker) lat lng now :
  handle M markers (MapClick lat lng now) = markers
  ∨ ∃ nm, handle M markers (MapClick lat lng now) = markers ++ [nm]
          ∧ position nm = (lat, lng)
          ∧ isDuplicate M markers lat lng = false
          ∧ wellMade nm.
Proof.
  unfold handle, AddMarker_click, handleAddMarker.
  destruct (isDuplicate M markers lat lng) eqn:Hd; [left; reflexivity|].
  destruct (invalidLatLng lat lng) eqn:Hv; [left; reflexivity|].
  right. eexists. split; [reflexivity|]. split; [reflexivity|].
  split; [reflexivity|].
  unfold wellMade, validPosition, hasKnownCategory.
  cbn [position fst snd title image category].
  rewrite Hv. repeat split. discriminate.
Qed.

(** The marker a row adds is well made and no duplicate of the markers of
    the state. *)
Lemma rowMarkers_wellMade (markers : list marker) clock ix la ln i r nm :
  nm ∈ rowMarkers M markers clock ix la ln i r →
  wellMade nm
  ∧ isDuplicate M markers (fst (position nm)) (snd (position nm)) = false.
Proof.
  unfold rowMarkers, rowBody.
  destruct (falsy (r !! la) || falsy (r !! ln)); [cbn; intros H; inversion H|].
  destruct (invalidLatLng _ _) eqn:Hv; [cbn; intros H; inversion H|].
  destruct (isDuplicate M markers _ _) eqn:Hd; [cbn; intros H; inversion H|].
  cbn [newMarkers emptyAcc app]. intros H.
  apply list_elem_of_singleton in H. subst nm.
  cbn [position fst snd]. split; [|exact Hd].
  unfold wellMade, validPosition, hasKnownCategory.
  cbn [position fst snd title image category]. rewrite Hv.
  split; [reflexivity|]. split.
  - match goal with |- context [if knownCategory ?c then _ else _] =>
      destruct (knownCategory c) eqn:Hk; [exact Hk|reflexivity] end.
  - split; [|reflexivity]. apply orElse_ne. discriminate.
Qed.

Lemma forEachRow_new (P : marker → Prop) (markers : list marker) clock ix la ln rs :
  (∀ i r nm, nm ∈ rowMarkers M markers clock ix la ln i r → P nm) →
  ∀ i acc,
    Forall P (newMarkers acc) →
    Forall P (newMarkers (forEachRow M markers clock ix la ln i rs acc)).
Proof.
  intros HP. induction rs as [|r rs IH]; intros i acc Hacc; [exact Hacc|].
  cbn [forEachRow]. apply IH. rewrite rowBody_adds. cbn [newMarkers].
  apply Forall_app. split; [exact Hacc|].
  apply Forall_forall. intros nm Hnm. apply (HP _ _ _ Hnm).
Qed.

Lemma importRows_new (P : marker → Prop) (markers : list marker) clock text acc :
  (∀ ix la ln i r nm, nm ∈ rowMarkers M markers clock ix la ln i r → P nm) →
  importRows M markers clock text = Some acc →
  Forall P (newMarkers acc).
Proof.
  intros HP Hi. unfold importRows in Hi.
  destruct (idx.lat _) as [la|]; [|discriminate].
  destruct (idx.lng _) as [ln|]; [|discriminate].
  injection Hi as <-. apply forEachRow_new; [apply HP|constructor].
Qed.

Lemma handle_appends (markers : list marker) ev :
  ∃ new, handle M markers ev = markers ++ new ∧ Forall wellMade new.
Proof.
  destruct ev as [lat lng now|text clock].
  - destruct (click_step markers lat lng now) as [H|(nm & H & _ & _ & Hw)].
    + exists []. rewrite H, app_nil_r. split; [reflexivity|constructor].
    + exists [nm]. split; [exact H|]. constructor; [exact Hw|constructor].
  - cbn [handle]. destruct (importRows M markers clock text) as [acc|] eqn:Hi.
    + exists (newMarkers acc). split.
      * apply onFileSelected_markers. exact Hi.
      * apply (importRows_new wellMade markers clock text acc); [|exact Hi].
        intros ix la ln i r nm Hnm.
        apply (rowMarkers_wellMade _ _ _ _ _ _ _ _ Hnm).
    + exists []. unfold onFileSelected. rewrite Hi, app_nil_r.
      split; [reflexivity|constructor].
Qed.

Lemma run_appends evs : ∀ markers : list marker,
  ∃ new, run M markers evs = markers ++ new ∧ Forall wellMade new.
Proof.
  induction evs as [|ev evs IH]; intros markers.
  - exists []. rewrite app_nil_r. split; [reflexivity|constructor].
  - destruct (handle_appends markers ev) as (n1 & H1 & W1).
    destruct (IH (handle M markers ev)) as (n2 & H2 & W2).
    exists (n1 ++ n2). split.
    + change (run M markers (ev :: evs)) with (run M (handle M markers ev) evs).
      rewrite H2, H1, app_assoc. reflexivity.
    + apply Forall_app. split; assumption.
Qed.

(** X1.  Clicks on the map and imports only append: after any sequence of
    them the markers that were there come first, unchanged and in their
    order, and every marker after them is well made: its position is finite
    and in range, its category is set, to one of the enumeration, its title
    is not empty and it has no image. *)
Theorem run_only_appends (markers : list marker) evs :
  take (length markers) (run M markers evs) = markers
  ∧ Forall wellMade (drop (length markers) (run M markers evs)).
Proof.
  destruct (run_appends evs markers) as (new & -> & Hw).
  rewrite take_app_length, drop_app_length. split; [reflexivity|exact Hw].
Qed.

(** X2.  When every marker of the store has a valid position and a category
    that is unset or of the enumeration, so has every marker after any
    sequence of clicks and imports. *)
Theorem run_keeps_store_valid (markers : list marker) evs :
  Forall (fun m => validPosition m = true ∧ categoryOK m = true) markers →
  Forall (fun m => validPosition m = true ∧ categoryOK m = true)
         (run M markers evs).
Proof.
  intros H. destruct (run_appends evs markers) as (new & -> & Hw).
  apply Forall_app. split; [exact H|].
  eapply Forall_impl; [exact Hw|]. intros m (Hv & Hc & _).
  split; [exact Hv|apply hasKnownCategory_OK, Hc].
Qed.

Lemma keepsDistance_nil : keepsDistance M [].
Proof. intros l1 m l2 H. destruct l1; discriminate. Qed.

Lemma keepsDistance_snoc (l : list marker) nm :
  keepsDistance M l →
  isDuplicate M l (fst (position nm)) (snd (position nm)) = false →
  keepsDistance M (l ++ [nm]).
Proof.
  intros Hl Hnm l1 m l2 Heq.
  destruct l2 as [|x l2' _] using rev_ind.
  - apply app_inj_tail in Heq as [-> ->]. exact Hnm.
  - rewrite app_comm_cons, app_assoc in Heq.
    apply app_inj_tail in Heq as [Heq _].
    apply (Hl _ _ _ Heq).
Qed.

(** X3.  Clicks keep the markers apart: when no marker of the store is a
    duplicate of the markers before it, the same holds after any sequence of
    clicks on the map. *)
Theorem clicks_keep_distance evs : ∀ markers : list marker,
  Forall (fun ev => isClick ev = true) evs →
  keepsDistance M markers →
  keepsDistance M (run M markers evs).
Proof.
  induction evs as [|ev evs IH]; intros markers Hev Hk; [exact Hk|].
  inversion Hev as [|? ? Hc Hrest]; subst.
  change (run M markers (ev :: evs)) with (run M (handle M markers ev) evs).
  apply IH; [exact Hrest|].
  destruct ev as [lat lng now|]; [|discriminate].
  destruct (click_step markers lat lng now) as [H|(nm & H & Hp & Hd & _)].
  - rewrite H. exact Hk.
  - rewrite H. apply keepsDistance_snoc; [exact Hk|].
    rewrite Hp. exact Hd.
Qed.

(** X7.  The duplicate test does not depend on the order of the markers. *)
Theorem isDuplicate_any_order (l l' : list marker) lat lng :
  l ≡ₚ l' → isDuplicate M l lat lng = isDuplicate M l' lat lng.
Proof.
  intros Hp. unfold isDuplicate.
  destruct (isDuplicateWithin M 5 l lat lng) eqn:H1;
    destruct (isDuplicateWithin M 5 l' lat lng) eqn:H2; try reflexivity.
  - apply isDuplicateWithin_true in H1 as (m & Hm & Hd).
    assert (isDuplicateWithin M 5 l' lat lng = true) as H3.
    { apply isDuplicateWithin_true. exists m. split; [|exact Hd].
      rewrite <- Hp. exact Hm. }
    congruence.
  - apply isDuplicateWithin_true in H2 as (m & Hm & Hd).
    assert (isDuplicateWithin M 5 l lat lng = true) as H3.
    { apply isDuplicateWithin_true. exists m. split; [|exact Hd].
      rewrite Hp. exact Hm. }
    congruence.
Qed.

(** ** The import, row by row *)

Lemma forEachRow_count (markers : list marker) clock ix la ln rs : ∀ i acc,
  imported acc = length (newMarkers acc) →
  (imported (forEachRow M markers clock ix la ln i rs acc)
   + length (errors (forEachRow M markers clock ix la ln i rs acc))
   = imported acc + length (errors acc) + length rs)%nat
  ∧ imported (forEachRow M markers clock ix la ln i rs acc)
    = length (newMarkers (forEachRow M markers clock ix la ln i rs acc)).
Proof.
  induction rs as [|r rs IH]; intros i acc Hacc; cbn [forEachRow length].
  - split; [lia|exact Hacc].
  - pose proof (rowBody_adds M markers clock ix la ln acc r i) as Hb.
    pose proof (f_equal imported Hb) as Hi.
    pose proof (f_equal (fun a => length (errors a)) Hb) as He.
    pose proof (f_equal (fun a => length (newMarkers a)) Hb) as Hn.
    cbn [imported errors newMarkers] in Hi, He, Hn.
    rewrite length_app in He, Hn.
    destruct (IH (S i) (rowBody M markers clock ix la ln acc r i)) as (IH1 & IH2).
    { lia. }
    split; [|exact IH2].
    destruct (row_error_or_marker M markers clock ix la ln i r) as [[H1 H2]|[H1 H2]].
    + rewrite H2 in Hi. rewrite H1 in He. cbn [length] in Hi. lia.
    + rewrite H1 in He. rewrite H2 in Hi. cbn [length] in He. lia.
Qed.

(** X4.  An import accounts for every row: the number of markers it reports
    and the number of its warnings add up to the number of rows of the file,
    the number it reports is the number of markers it made, and the store
    grows by that number. *)
Theorem import_accounts_for_every_row (markers : list marker) clock text acc :
  importRows M markers clock text = Some acc →
  (imported acc + length (errors acc) = length (rows (parseCSV text))
   ∧ length (newMarkers acc) = imported acc
   ∧ length (fst (onFileSelected M markers clock text))
     = length markers + imported acc)%nat.
Proof.
  intros Hi. rewrite (onFileSelected_markers _ _ _ _ _ Hi), length_app.
  unfold importRows in Hi.
  destruct (idx.lat _) as [la|]; [|discriminate].
  destruct (idx.lng _) as [ln|]; [|discriminate].
  injection Hi as <-.
  destruct (forEachRow_count markers clock (headerIndices (headers (parseCSV text)))
              la ln (rows (parseCSV text)) 0 emptyAcc eq_refl) as (H1 & H2).
  cbn [emptyAcc imported errors newMarkers length] in H1. lia.
Qed.

(** X8.  No marker an import adds is a duplicate of a marker the store held
    when the import began. *)
Theorem import_avoids_existing (markers : list marker) clock text acc :
  importRows M markers clock text = Some acc →
  Forall (fun nm =>
            isDuplicate M markers (fst (position nm)) (snd (position nm)) = false)
         (newMarkers acc).
Proof.
  apply importRows_new. intros ix la ln i r nm Hnm.
  apply (rowMarkers_wellMade _ _ _ _ _ _ _ _ Hnm).
Qed.

End RunFacts.

Lemma run_keeps_store_valid_witness :
  Forall (fun m => validPosition m = true ∧ categoryOK m = true)
    (run RefMath.lib [Sample.clicked]
       [FileLoaded Sample.oneBadRow Sample.clock; MapClick 30 40 1700000002000]).
Proof.
  apply (run_keeps_store_valid RefMath.lib).
  repeat constructor.
Defined.

Lemma clicks_keep_distance_witness :
  keepsDistance RefMath.lib
    (run RefMath.lib [Sample.clicked]
       [MapClick 1 2 1700000001000; MapClick 3 4 1700000002000])
  ∧ length (run RefMath.lib [Sample.clicked]
              [MapClick 1 2 1700000001000; MapClick 3 4 1700000002000])
    = 2%nat.
Proof.
  split.
  - apply (clicks_keep_distance RefMath.lib).
    + repeat constructor.
    + apply (keepsDistance_snoc RefMath.lib [] Sample.clicked).
      * apply keepsDistance_nil.
      * reflexivity.
  - vm_compute. reflexivity.
Defined.

Lemma isDuplicate_any_order_witness :
  isDuplicate RefMath.lib [Sample.clicked; Sample.cafe] 12.5 77.25
  = isDuplicate RefMath.lib [Sample.cafe; Sample.clicked] 12.5 77.25
  ∧ isDuplicate RefMath.lib [Sample.clicked; Sample.cafe] 12.5 77.25 = true.
Proof.
  split.
  - apply (isDuplicate_any_order RefMath.lib). apply perm_swap.
  - vm_compute. reflexivity.
Defined.

Lemma import_accounts_for_every_row_witness :
  ∃ acc, importRows RefMath.lib [] Sample.clock Sample.oneBadRow = Some acc
    ∧ (imported acc + length (errors acc) = 3
       ∧ length (newMarkers acc) = imported acc
       ∧ length (fst (onFileSelected RefMath.lib [] Sample.clock Sample.oneBadRow))
         = 0 + imported acc)%nat.
Proof.
  eexists. split; [vm_compute; reflexivity|].
  apply (import_accounts_for_every_row RefMath.lib [] Sample.clock Sample.oneBadRow).
  vm_compute. reflexivity.
Defined.

Lemma import_avoids_existing_witness :
  ∃ acc, importRows RefMath.lib [Sample.cafe] Sample.clock Sample.threeRows
         = Some acc
    ∧ length (newMarkers acc) = 3%nat
    ∧ Forall (fun nm =>
                isDuplicate RefMath.lib [Sample.cafe]
                  (fst (position nm)) (snd (position nm)) = false)
             (newMarkers acc).
Proof.
  eexists. split; [vm_compute; reflexivity|].
  split; [vm_compute; reflexivity|].
  apply (import_avoids_existing RefMath.lib [Sample.cafe] Sample.clock
           Sample.threeRows).
  vm_compute. reflexivity.
Defined.

(** ** Rows without quotes, and the header of an export *)

Lemma split_nonempty sep (s : string) : split sep s ≠ [].
Proof.
  destruct s as [|c r]; cbn [split]; [discriminate|].
  destruct (Ascii.eqb c sep); [discriminate|].
  destruct (split sep r); discriminate.
Qed.

Lemma splitFields_no_quote (ln : string) : ∀ cur values,
  noQuote ln = true →
  splitFields cur false values ln
  = values ++ match split Chr.comma ln with
              | p :: ps => (cur +:+ p) :: ps
              | [] => [cur]
              end.
Proof.
  induction ln as [|ch rest IH]; intros cur values Hq.
  - cbn [splitFields split]. rewrite sapp_nil_r. reflexivity.
  - unfold noQuote in Hq. cbn [allChars] in Hq.
    apply andb_true_iff in Hq as [Hc Hrest].
    apply negb_true_iff in Hc.
    rewrite splitFields_cons, Hc. cbn [split negb]. rewrite andb_true_r.
    pose proof (split_nonempty Chr.comma rest) as Hne.
    destruct (Ascii.eqb ch Chr.comma) eqn:Hcomma.
    + rewrite (IH "" (values ++ [cur]) Hrest).
      rewrite sapp_nil_r, <- app_assoc. cbn [app].
      destruct (split Chr.comma rest) as [|p ps]; [congruence|].
      rewrite sapp_nil_l. reflexivity.
    + rewrite (IH (cur +:+ str1 ch) values Hrest).
      destruct (split Chr.comma rest) as [|p ps]; [congruence|].
      rewrite sapp_assoc, str1_app. reflexivity.
Qed.

(** X5.  On a line without a double quote the field parser of the import
    does what splitting at the commas and trimming each cell does. *)
Theorem parseRow_without_quotes (ln : string) :
  noQuote ln = true → parseRow ln = map trim (split Chr.comma ln).
Proof.
  intros Hq. unfold parseRow. rewrite (splitFields_no_quote ln "" [] Hq).
  cbn [app]. pose proof (split_nonempty Chr.comma ln) as Hne.
  destruct (split Chr.comma ln) as [|p ps]; [congruence|].
  rewrite sapp_nil_l. reflexivity.
Qed.

Lemma parseRow_without_quotes_witness :
  parseRow " Cafe , 12.5,77.25 ,,Shop" = ["Cafe"; "12.5"; "77.25"; ""; "Shop"]
  ∧ parseRow " Cafe , 12.5,77.25 ,,Shop"
    = map trim (split Chr.comma " Cafe , 12.5,77.25 ,,Shop").
Proof.
  split; [vm_compute; reflexivity|].
  apply parseRow_without_quotes. vm_compute. reflexivity.
Defined.

Lemma rowsText_head (ms : list marker) :
  ∃ rest,
    split_lines ("Title,Description,Latitude,Longitude,Category" +:+ rowsText ms)
    = "Title,Description,Latitude,Longitude,Category" :: rest.
Proof.
  destruct ms as [|m ms].
  - exists []. cbn [rowsText]. rewrite sapp_nil_r.
    apply split_lines_last. vm_compute. reflexivity.
  - cbn [rowsText]. rewrite str1_app.
    eexists. apply split_lines_line; vm_compute; reflexivity.
Qed.

Lemma parseCSV_export_headers (ms : list marker) :
  headers (parseCSV (markersToCSVString ms)) = csvHeaders.
Proof.
  rewrite markersToCSVString_text. unfold parseCSV.
  destruct (rowsText_head ms) as (rest & ->).
  cbn [List.filter].
  change (0 <? String.length (trim "Title,Description,Latitude,Longitude,Category"))%nat
    with true.
  cbn iota. cbn [headers]. vm_compute. reflexivity.
Qed.

(** X6.  The import finds its columns in every export: whatever the markers
    exported, and whatever the store, the header read back is the header
    written, and the import runs through to its summary. *)
Theorem export_always_importable M (markers ms : list marker) clock :
  headers (parseCSV (markersToCSVString ms)) = csvHeaders
  ∧ ∃ acc, importRows M markers clock (markersToCSVString ms) = Some acc
           ∧ snd (onFileSelected M markers clock (markersToCSVString ms))
             = Some (AlertImport (importMessage acc)).
Proof.
  split; [apply parseCSV_export_headers|].
  unfold onFileSelected, importRows. rewrite parseCSV_export_headers.
  rewrite headerIndices_csv. cbn [idx.lat idx.lng].
  eexists. split; reflexivity.
Qed.

(** ** Deleting a marker, and its image *)

(** X9.  The delete button removes every marker that has the id of the
    marker of the popup, and nothing else: the others stay, in their
    order. *)
Theorem deleteMarker_removes_id mid (prev : list marker) :
  (∀ x, x ∈ deleteMarker mid prev
        ↔ x ∈ prev ∧ PrimFloat.eqb (id x) mid = false)
  ∧ sublist (deleteMarker mid prev) prev
  ∧ (length (deleteMarker mid prev)
     + length (List.filter (fun x => PrimFloat.eqb (id x) mid) prev)
     = length prev)%nat.
Proof.
  unfold deleteMarker. split; [|split].
  - intros x. rewrite elem_of_List_filter, negb_true_iff. reflexivity.
  - apply sublist_List_filter.
  - apply (length_List_filter_negb (fun x => PrimFloat.eqb (id x) mid)).
Qed.

(** Of the two markers that share an id after an import and a click,
    deleting either deletes both. *)
Example deleteMarker_shared_id :
  deleteMarker 3 [Sample.shopA; Sample.unset; Sample.shopB;
                  {| id := 3; position := (5, 5)%float; title := "D";
                     description := ""; category := None; image := None |}]
  = [Sample.shopA; Sample.shopB].
Proof. reflexivity. Qed.

(** X10.  An uploaded image changes the image of the markers with the given
    id and nothing else: ids, titles, descriptions, positions and categories
    are as before, and so is the export. *)
Theorem handleImageUpload_frame mid result (prev : list marker) :
  map id (handleImageUpload mid result prev) = map id prev
  ∧ map tupleOf (handleImageUpload mid result prev) = map tupleOf prev
  ∧ map image (handleImageUpload mid result prev)
    = map (fun m => if PrimFloat.eqb (id m) mid then result else image m) prev
  ∧ markersToCSVString (handleImageUpload mid result prev)
    = markersToCSVString prev.
Proof.
  assert (∀ B (f : marker → B),
            (∀ m r, f {| id := id m; position := position m; title := title m;
                         description := description m; category := category m;
                         image := r |} = f m) →
            map f (handleImageUpload mid result prev) = map f prev) as Hmap.
  { intros B f Hf. unfold handleImageUpload. rewrite map_map.
    apply map_ext. intros m.
    destruct (PrimFloat.eqb (id m) mid); [apply Hf|reflexivity]. }
  split; [apply Hmap; reflexivity|].
  split; [apply Hmap; reflexivity|].
  split.
  - unfold handleImageUpload. rewrite map_map. apply map_ext. intros m.
    destruct (PrimFloat.eqb (id m) mid); reflexivity.
  - unfold markersToCSVString. cbn zeta.
    rewrite (Hmap _ csvRow); [reflexivity|]. reflexivity.
Qed.

(** ** The filter of the marker list *)

Lemma prefix_nil (s : string) : String.prefix "" s = true.
Proof. destruct s; reflexivity. Qed.

Lemma includes_nil (s : string) : includes s "" = true.
Proof. destruct s; reflexivity. Qed.

Lemma prefix_includes (s t : string) :
  String.prefix t s = true → includes s t = true.
Proof. intros H. destruct s; cbn [includes]; rewrite H; reflexivity. Qed.

Lemma prefix_app_l (t u : string) : ∀ s,
  String.prefix (t +:+ u) s = true → String.prefix t s = true.
Proof.
  induction t as [|a t IH]; intros s H; [apply prefix_nil|].
  rewrite sapp_cons in H. destruct s as [|b s]; [discriminate|].
  cbn [String.prefix] in *. destruct (ascii_dec a b); [|discriminate].
  apply IH. exact H.
Qed.

Lemma includes_app_l (s t u : string) :
  includes s (t +:+ u) = true → includes s t = true.
Proof.
  induction s as [|b s IH]; cbn [includes]; intros H.
  - rewrite orb_false_r in *. apply (prefix_app_l _ _ _ H).
  - apply orb_true_iff in H as [H|H].
    + rewrite (prefix_app_l _ _ _ H). reflexivity.
    + rewrite (IH H). apply orb_true_r.
Qed.

Lemma includes_tail a (t : string) : ∀ s,
  includes s (String a t) = true → includes s t = true.
Proof.
  induction s as [|b s IH]; cbn [includes]; intros H.
  - discriminate.
  - apply orb_true_iff in H as [H|H].
    + cbn [String.prefix] in H. destruct (ascii_dec a b); [|discriminate].
      rewrite (prefix_includes _ _ H). apply orb_true_r.
    + rewrite (IH H). apply orb_true_r.
Qed.

Lemma includes_app_r (s u t : string) :
  includes s (u +:+ t) = true → includes s t = true.
Proof.
  induction u as [|a u IH]; intros H.
  - rewrite sapp_nil_l in H. exact H.
  - rewrite sapp_cons in H. apply IH. apply (includes_tail _ _ _ H).
Qed.

Lemma prefix_split (a : string) : ∀ s,
  String.prefix a s = true → ∃ q, s = a +:+ q.
Proof.
  induction a as [|c a IH]; intros s H.
  - exists s. rewrite sapp_nil_l. reflexivity.
  - destruct s as [|b s]; [discriminate|].
    cbn [String.prefix] in H. destruct (ascii_dec c b) as [->|]; [|discriminate].
    destruct (IH s H) as (q & ->). exists q. rewrite sapp_cons. reflexivity.
Qed.

Lemma includes_split (a : string) : ∀ s,
  includes s a = true → ∃ p q, s = p +:+ a +:+ q.
Proof.
  induction s as [|b s IH]; cbn [includes]; intros H.
  - rewrite orb_false_r in H. destruct (prefix_split _ _ H) as (q & Hq).
    exists "", q. rewrite sapp_nil_l. exact Hq.
  - apply orb_true_iff in H as [H|H].
    + destruct (prefix_split _ _ H) as (q & Hq).
      exists "", q. rewrite sapp_nil_l. exact Hq.
    + destruct (IH H) as (p & q & ->).
      exists (String b p), q. rewrite sapp_cons. reflexivity.
Qed.

(** A text that occurs in a text that occurs in [s] occurs in [s]. *)
Lemma includes_trans (s a b : string) :
  includes s a = true → includes a b = true → includes s b = true.
Proof.
  intros Hsa Hab. destruct (includes_split _ _ Hab) as (p & q & ->).
  apply includes_app_r, includes_app_l in Hsa. exact Hsa.
Qed.

Lemma toLowerChar_idem c : toLowerChar (toLowerChar c) = toLowerChar c.
Proof.
  destruct c as [[] [] [] [] [] [] [] []]; vm_compute; reflexivity.
Qed.

Lemma toLowerCase_idem (s : string) : toLowerCase (toLowerCase s) = toLowerCase s.
Proof.
  induction s as [|c s IH]; [reflexivity|].
  cbn [toLowerCase]. rewrite toLowerChar_idem, IH. reflexivity.
Qed.

(** X11.  With the search term empty and the category All, as the Clear
    Filters button sets them, the list shows every marker.  In general it
    shows markers of the store in their order, all of the selected category
    unless that is All, and the letter case of the search term does not
    matter. *)
Theorem filteredMarkers_selects (ms : list marker) (t c : string) :
  filteredMarkers ms "" "All" = ms
  ∧ sublist (filteredMarkers ms t c) ms
  ∧ (∀ m, m ∈ filteredMarkers ms t c → c = "All" ∨ category m = Some c)
  ∧ filteredMarkers ms (toLowerCase t) c = filteredMarkers ms t c.
Proof.
  split; [|split; [|split]].
  - unfold filteredMarkers. apply filter_all. apply Forall_forall. intros m _.
    cbn zeta. change (toLowerCase "") with "". rewrite !includes_nil. reflexivity.
  - apply sublist_List_filter.
  - intros m Hm. unfold filteredMarkers in Hm.
    apply elem_of_List_filter in Hm as [_ Hm]. cbn zeta in Hm.
    apply andb_true_iff in Hm as [_ Hm]. apply orb_true_iff in Hm as [Hm|Hm].
    + left. apply String.eqb_eq. exact Hm.
    + right. unfold categoryIs in Hm.
      destruct (category m) as [k|]; [|discriminate].
      apply String.eqb_eq in Hm. congruence.
  - unfold filteredMarkers. rewrite toLowerCase_idem. reflexivity.
Qed.

(** X12.  A search term that contains another never shows more: when the
    lower-cased term [t] occurs in the lower-cased term [t'], the markers
    found for [t'] are among the markers found for [t], in the same order.
    The statement compares the two terms after lower-casing, so it asks
    nothing of how lower-casing treats the letters of a term. *)
Theorem filteredMarkers_narrows (ms : list marker) (t t' c : string) :
  includes (toLowerCase t') (toLowerCase t) = true →
  sublist (filteredMarkers ms t' c) (filteredMarkers ms t c).
Proof.
  intros Ht. unfold filteredMarkers. apply sublist_List_filter_impl.
  intros m. cbn zeta.
  intros H. apply andb_true_iff in H as [H Hc]. rewrite Hc, andb_true_r.
  apply orb_true_iff in H as [H|H].
  - rewrite (includes_trans _ _ _ H Ht). reflexivity.
  - rewrite (includes_trans _ _ _ H Ht). apply orb_true_r.
Qed.

Lemma filteredMarkers_narrows_witness :
  map title (filteredMarkers [Sample.clicked; Sample.cafe; Sample.inn] "E" "All")
  = ["New Marker"; "Cafe, central"; title Sample.inn]
  ∧ map title
      (filteredMarkers [Sample.clicked; Sample.cafe; Sample.inn] "Cafe, c" "All")
    = ["Cafe, central"]
  ∧ sublist
      (filteredMarkers [Sample.clicked; Sample.cafe; Sample.inn] "Cafe, c" "All")
      (filteredMarkers [Sample.clicked; Sample.cafe; Sample.inn] "E" "All").
Proof.
  split; [vm_compute; reflexivity|]. split; [vm_compute; reflexivity|].
  apply (filteredMarkers_narrows [Sample.clicked; Sample.cafe; Sample.inn]
           "E" "Cafe, c" "All").
  vm_compute. reflexivity.
Defined.

Example filteredMarkers_sample :
  map title (filteredMarkers [Sample.clicked; Sample.cafe; Sample.inn] "CAF" "All")
  = ["Cafe, central"]
  ∧ map title
      (filteredMarkers [Sample.clicked; Sample.cafe; Sample.inn] "e" "Restaurant")
    = [title Sample.inn].
Proof. split; vm_compute; reflexivity. Qed.

(** * Objects with their keys in order *)

Lemma lookupKey_setKey_eq {A} k (v : A) (o : list (string * A)) :
  lookupKey k (setKey k v o) = Some v.
Proof.
  induction o as [|[k' v'] o IH]; cbn [setKey lookupKey].
  - rewrite String.eqb_refl. reflexivity.
  - destruct (String.eqb k' k) eqn:E; cbn [lookupKey].
    + rewrite String.eqb_refl. reflexivity.
    + rewrite E. exact IH.
Qed.

Lemma lookupKey_setKey_ne {A} k k' (v : A) (o : list (string * A)) :
  k' ≠ k → lookupKey k' (setKey k v o) = lookupKey k' o.
Proof.
  intros Hne. induction o as [|[k0 v0] o IH]; cbn [setKey lookupKey].
  - destruct (String.eqb k k') eqn:E; [|reflexivity].
    apply String.eqb_eq in E. congruence.
  - destruct (String.eqb k0 k) eqn:E; cbn [lookupKey].
    + apply String.eqb_eq in E. subst k0.
      destruct (String.eqb k k') eqn:E'; [|reflexivity].
      apply String.eqb_eq in E'. congruence.
    + destruct (String.eqb k0 k'); [reflexivity|exact IH].
Qed.

Lemma lookupKey_setKey {A} k k' (v : A) (o : list (string * A)) :
  lookupKey k' (setKey k v o)
  = if String.eqb k k' then Some v else lookupKey k' o.
Proof.
  destruct (String.eqb k k') eqn:E.
  - apply String.eqb_eq in E. subst. apply lookupKey_setKey_eq.
  - apply String.eqb_neq in E. apply lookupKey_setKey_ne. congruence.
Qed.

Lemma is_Some_lookupKey_setKey {A} k k' (v : A) (o : list (string * A)) :
  is_Some (lookupKey k' o) → is_Some (lookupKey k' (setKey k v o)).
Proof.
  intros H. rewrite lookupKey_setKey.
  destruct (String.eqb k k'); [eexists; reflexivity|exact H].
Qed.

Lemma lookupKey_None {A} k (o : list (string * A)) :
  lookupKey k o = None ↔ k ∉ map fst o.
Proof.
  induction o as [|[k' v'] o IH]; cbn [lookupKey map fst].
  - split; [intros _ H; inversion H|reflexivity].
  - rewrite not_elem_of_cons. destruct (String.eqb k' k) eqn:E.
    + apply String.eqb_eq in E. split; [discriminate|]. intros [H _]. congruence.
    + apply String.eqb_neq in E. rewrite IH.
      split; [intros H; split; [congruence|exact H]|intros [_ H]; exact H].
Qed.

Lemma elem_lookupKey {A} k (v : A) (o : list (string * A)) :
  NoDup (map fst o) → (k, v) ∈ o → lookupKey k o = Some v.
Proof.
  induction o as [|[k' v'] o IH]; cbn [lookupKey map fst]; intros Hnd Hin.
  - inversion Hin.
  - apply NoDup_cons in Hnd as [Hk' Hnd].
    apply elem_of_cons in Hin as [Heq|Hin].
    + injection Heq as -> ->. rewrite String.eqb_refl. reflexivity.
    + destruct (String.eqb k' k) eqn:E; [|apply IH; assumption].
      apply String.eqb_eq in E. subst k'. exfalso. apply Hk'.
      apply (list_elem_of_fmap_2 fst) in Hin. exact Hin.
Qed.

Lemma keys_setKey {A} k (v : A) (o : list (string * A)) :
  map fst (setKey k v o)
  = match lookupKey k o with
    | Some _ => map fst o
    | None => map fst o ++ [k]
    end.
Proof.
  induction o as [|[k' v'] o IH]; cbn [setKey lookupKey map fst app];
    [reflexivity|].
  destruct (String.eqb k' k) eqn:E; cbn [map fst].
  - apply String.eqb_eq in E. subst. reflexivity.
  - rewrite IH. destruct (lookupKey k o); reflexivity.
Qed.

Lemma NoDup_setKey {A} k (v : A) (o : list (string * A)) :
  NoDup (map fst o) → NoDup (map fst (setKey k v o)).
Proof.
  intros Hnd. rewrite keys_setKey. destruct (lookupKey k o) eqn:E; [exact Hnd|].
  apply NoDup_app. split; [exact Hnd|]. split.
  - intros x Hx Hx'. apply list_elem_of_singleton in Hx'. subst x.
    apply lookupKey_None in E. contradiction.
  - apply NoDup_singleton.
Qed.

Lemma NoDup_deleteKey {A} k (o : list (string * A)) :
  NoDup (map fst o) → NoDup (map fst (deleteKey k o)).
Proof.
  intros H. rewrite keys_deleteKey.
  eapply sublist_NoDup; [exact H|apply sublist_List_filter].
Qed.

Lemma setKey_same {A} k (v : A) (o : list (string * A)) :
  lookupKey k o = Some v → setKey k v o = o.
Proof.
  induction o as [|[k' v'] o IH]; cbn [lookupKey setKey]; [discriminate|].
  destruct (String.eqb k' k) eqn:E.
  - apply String.eqb_eq in E. intros [= ->]. subst. reflexivity.
  - intros H. rewrite (IH H). reflexivity.
Qed.

Lemma sum_setKey k (v : nat) (o : list (string * nat)) :
  (sum_list (map snd (setKey k v o)) + default 0 (lookupKey k o)
   = sum_list (map snd o) + v)%nat.
Proof.
  induction o as [|[k' v'] o IH]; cbn [setKey lookupKey].
  - simpl. lia.
  - destruct (String.eqb k' k); simpl; simpl in IH; lia.
Qed.

Lemma firstKeyOr_present {A} (o : list (string * A)) d :
  is_Some (lookupKey d o) → is_Some (lookupKey (firstKeyOr o d) o).
Proof.
  intros Hd. unfold firstKeyOr. destruct o as [|[k v] o]; [exact Hd|].
  cbn [map fst head orElse]. destruct (String.eqb k "") eqn:E; [exact Hd|].
  cbn [lookupKey]. rewrite String.eqb_refl. eexists. reflexivity.
Qed.

(** * The slices of the Dashboard and the counts of the report *)

Lemma Dashboard_entries_fold (ms : list marker) : ∀ acc : list (string * nat),
  NoDup (map fst acc) →
  let out :=
    foldl (fun counts m =>
             let cat := orElse (category m) "General" in
             setKey cat (default 0 (lookupKey cat counts) + 1)%nat counts)
          acc ms in
  NoDup (map fst out)
  ∧ (∀ k, lookupKey k out
          = match lookupKey k acc with
            | Some n => Some (n + countAs k ms)%nat
            | None => if decide (countAs k ms = 0%nat) then None
                      else Some (countAs k ms)
            end)
  ∧ sum_list (map snd out) = (sum_list (map snd acc) + length ms)%nat.
Proof.
  induction ms as [|m ms IH]; intros acc Hnd; cbn zeta.
  - cbn [foldl length]. split; [exact Hnd|]. split; [|lia].
    intros k. change (countAs k []) with 0%nat.
    destruct (lookupKey k acc); [f_equal; lia|reflexivity].
  - cbn [foldl length].
    set (cat := orElse (category m) "General").
    set (acc' := setKey cat (default 0 (lookupKey cat acc) + 1)%nat acc).
    destruct (IH acc' (NoDup_setKey _ _ _ Hnd)) as (H1 & H2 & H3).
    cbn zeta in H1, H2, H3.
    split; [exact H1|]. split.
    + intros k. rewrite H2, countAs_cons. fold cat.
      destruct (String.eqb cat k) eqn:E.
      * apply String.eqb_eq in E. subst k. unfold acc'. cbv iota.
        rewrite lookupKey_setKey_eq.
        destruct (lookupKey cat acc); cbn [from_option Datatypes.id].
        -- f_equal. lia.
        -- destruct (decide _); [lia|f_equal; lia].
      * apply String.eqb_neq in E. unfold acc'.
        rewrite lookupKey_setKey_ne by congruence.
        cbv iota. rewrite Nat.add_0_l. reflexivity.
    + rewrite H3.
      pose proof (sum_setKey cat (default 0 (lookupKey cat acc) + 1) acc) as Hs.
      fold acc' in Hs. lia.
Qed.

Lemma Dashboard_entries_lookup (ms : list marker) k :
  lookupKey k (Dashboard_entries ms)
  = if decide (countAs k ms = 0%nat) then None else Some (countAs k ms).
Proof.
  destruct (Dashboard_entries_fold ms [] (NoDup_nil_2)) as (_ & H & _).
  apply H.
Qed.

(** The colours of the Dashboard are the colours of the categories. *)
Lemma known_color k :
  knownCategory k = true →
  ∃ c, c ∈ CATEGORIES ∧ key c = k
       ∧ orElse (lookupKey k CATEGORY_COLORS) "#3388ff" = color c.
Proof.
  intros Hk. apply knownCategory_cases in Hk.
  destruct Hk as [-> | [-> | [-> | [-> | ->]]]].
  - exists {| key := "General"; color := "#3388ff" |}.
    split; [apply list_elem_of_here|split; reflexivity].
  - exists {| key := "Restaurant"; color := "#e74c3c" |}.
    split; [apply list_elem_of_further, list_elem_of_here|split; reflexivity].
  - exists {| key := "College"; color := "#27ae60" |}.
    split; [do 2 apply list_elem_of_further; apply list_elem_of_here
           |split; reflexivity].
  - exists {| key := "Event"; color := "#f1c40f" |}.
    split; [do 3 apply list_elem_of_further; apply list_elem_of_here
           |split; reflexivity].
  - exists {| key := "Shop"; color := "#9b59b6" |}.
    split; [do 4 apply list_elem_of_further; apply list_elem_of_here
           |split; reflexivity].
Qed.

(** X13.  For markers whose category is unset or of the enumeration, the
    chart of the Dashboard has one slice for each category that occurs (an
    unset one counting as General) and none for the others; the value of a
    slice is the number of markers of its category, its colour is the colour
    of that category, and the values add up to the number of markers. *)
Theorem Dashboard_data_slices (ms : list marker) :
  Forall (fun m => categoryOK m = true) ms →
  NoDup (map Slice.name (Dashboard_data ms))
  ∧ (∀ k, k ∈ map Slice.name (Dashboard_data ms) ↔ countAs k ms ≠ 0%nat)
  ∧ (∀ e, e ∈ Dashboard_data ms →
          Slice.value e = countAs (Slice.name e) ms
          ∧ ∃ c, c ∈ CATEGORIES ∧ key c = Slice.name e
                 ∧ Slice.color e = color c)
  ∧ sum_list (map Slice.value (Dashboard_data ms)) = length ms.
Proof.
  intros Hok.
  destruct (Dashboard_entries_fold ms [] (NoDup_nil_2)) as (Hnd & _ & Hsum).
  cbn zeta in Hnd, Hsum. fold (Dashboard_entries ms) in Hnd, Hsum.
  assert (map Slice.name (Dashboard_data ms) = map fst (Dashboard_entries ms))
    as Hn.
  { unfold Dashboard_data. rewrite map_map. reflexivity. }
  assert (map Slice.value (Dashboard_data ms) = map snd (Dashboard_entries ms))
    as Hv.
  { unfold Dashboard_data. rewrite map_map. reflexivity. }
  assert (∀ k, k ∈ map fst (Dashboard_entries ms) ↔ countAs k ms ≠ 0%nat)
    as Hkeys.
  { intros k. pose proof (lookupKey_None k (Dashboard_entries ms)) as HN.
    rewrite Dashboard_entries_lookup in HN.
    destruct (decide (countAs k ms = 0%nat)) as [E|E].
    - split; [intros Hin; exfalso; apply (proj1 HN eq_refl), Hin|congruence].
    - split; [intros _; exact E|]. intros _.
      destruct (decide (k ∈ map fst (Dashboard_entries ms))) as [Hin|Hin];
        [exact Hin|].
      apply HN in Hin. discriminate. }
  rewrite Hn, Hv. split; [exact Hnd|]. split; [exact Hkeys|].
  split; [|exact Hsum].
  intros e He. unfold Dashboard_data in He.
  apply list_elem_of_fmap in He as ([k n] & -> & Hin).
  cbn [Slice.name Slice.value Slice.color fst snd].
  pose proof (elem_lookupKey _ _ _ Hnd Hin) as Hl.
  rewrite Dashboard_entries_lookup in Hl.
  destruct (decide (countAs k ms = 0%nat)) as [E|E]; [discriminate|].
  injection Hl as Hl. split; [congruence|].
  apply countAs_pos in E as (m & Hm & Hk).
  rewrite Forall_forall in Hok. specialize (Hok m Hm).
  assert (knownCategory k = true) as Hknown.
  { subst k. unfold categoryOK, orElse in *.
    destruct (category m) as [c|]; [|reflexivity].
    destruct (String.eqb c ""); [reflexivity|exact Hok]. }
  destruct (known_color k Hknown) as (c & Hc & Hkc & Hcol).
  exists c. split; [exact Hc|]. split; [exact Hkc|exact Hcol].
Qed.

Lemma Dashboard_data_slices_witness :
  Dashboard_data [Sample.shopA; Sample.unset; Sample.shopB]
  = [ {| Slice.name := "Shop"; Slice.value := 2; Slice.color := "#9b59b6" |};
      {| Slice.name := "General"; Slice.value := 1; Slice.color := "#3388ff" |} ]
  ∧ sum_list (map Slice.value
                (Dashboard_data [Sample.shopA; Sample.unset; Sample.shopB]))
    = 3%nat.
Proof.
  split; [vm_compute; reflexivity|].
  apply (Dashboard_data_slices [Sample.shopA; Sample.unset; Sample.shopB]).
  repeat constructor.
Defined.

Lemma categoryIs_total (m : marker) :
  ((if categoryIs "General" m then 1 else 0)
   + (if categoryIs "Restaurant" m then 1 else 0)
   + (if categoryIs "College" m then 1 else 0)
   + (if categoryIs "Event" m then 1 else 0)
   + (if categoryIs "Shop" m then 1 else 0)
   = if hasKnownCategory m then 1 else 0)%nat.
Proof.
  unfold categoryIs, hasKnownCategory.
  destruct (category m) as [c|]; [|reflexivity].
  destruct (knownCategory c) eqn:Hk.
  - apply knownCategory_cases in Hk.
    destruct Hk as [-> | [-> | [-> | [-> | ->]]]]; reflexivity.
  - assert (∀ k, k ∈ map key CATEGORIES → String.eqb c k = false) as Hne.
    { intros k Hin. apply String.eqb_neq. intros ->.
      apply knownCategory_iff in Hin. congruence. }
    rewrite !Hne; [reflexivity|..]; apply knownCategory_iff; reflexivity.
Qed.

(** X14.  The five counts of the report add up to the number of markers
    whose category is set to one of the enumeration, so they fall short of
    the number of markers by the markers without such a category. *)
Theorem catCounts_total (ms : list marker) :
  (default 0 (catCounts ms !! "General")
   + default 0 (catCounts ms !! "Restaurant")
   + default 0 (catCounts ms !! "College")
   + default 0 (catCounts ms !! "Event")
   + default 0 (catCounts ms !! "Shop")
   = length (List.filter hasKnownCategory ms))%nat
  ∧ (length (List.filter hasKnownCategory ms)
     + length (List.filter (fun m => negb (hasKnownCategory m)) ms)
     = length ms)%nat.
Proof.
  split.
  - rewrite catCounts_unfold. simplify_map_eq. cbn [default].
    induction ms as [|m ms IH]; [reflexivity|].
    rewrite !length_filter_cons. pose proof (categoryIs_total m). lia.
  - induction ms as [|m ms IH]; [reflexivity|].
    rewrite !length_filter_cons. cbn [length].
    destruct (hasKnownCategory m); cbn [negb]; lia.
Qed.

(** * The project registry under the effect *)

Lemma project_eta (p : Project.t) :
  {| Project.name := Project.name p; Project.markers := Project.markers p;
     Project.shapes := Project.shapes p |} = p.
Proof. destruct p. reflexivity. Qed.

(** The effect on a state whose active key has an entry. *)
Lemma persistEffect_synced st p :
  NoDup (map fst (savedMaps st)) →
  is_Some (lookupKey "default" (savedMaps st)) →
  lookupKey (currentMap st) (savedMaps st) = Some p →
  ∃ st', persistEffect st = Some st' ∧ synced st'
    ∧ savedMaps st'
      = setKey (currentMap st)
          {| Project.name := Project.name p; Project.markers := markers st;
             Project.shapes := shapes st |} (savedMaps st)
    ∧ currentMap st' = currentMap st ∧ markers st' = markers st
    ∧ shapes st' = shapes st.
Proof.
  intros Hnd Hdef Hcur. unfold persistEffect. rewrite Hcur.
  eexists. split; [reflexivity|]. split; [|repeat split].
  unfold synced. cbn [savedMaps currentMap markers shapes localStorage_maps].
  split; [apply NoDup_setKey, Hnd|].
  split; [apply is_Some_lookupKey_setKey, Hdef|].
  split; [|reflexivity].
  eexists. split; [apply lookupKey_setKey_eq|]. split; reflexivity.
Qed.

(** On a synced state the effect changes nothing. *)
Lemma persistEffect_idempotent st : synced st → persistEffect st = Some st.
Proof.
  intros (Hnd & Hdef & (p & Hcur & Hm & Hs) & Hls).
  unfold persistEffect. rewrite Hcur, <- Hm, <- Hs, project_eta.
  rewrite (setKey_same _ _ _ Hcur), Hm, Hs.
  destruct st as [sm cm ms ss ls]. cbn in *. rewrite Hls. reflexivity.
Qed.

Lemma blankAnswer_false answer :
  blankAnswer answer = false → trim (default "" answer) ≠ "".
Proof.
  unfold blankAnswer. destruct answer as [s|]; [|discriminate].
  cbn [from_option Datatypes.id]. intros H. apply String.eqb_neq. exact H.
Qed.

(** handleRenameMap throws when the active key has no entry. *)
Lemma handleRenameMap_no_entry answer st :
  lookupKey (currentMap st) (savedMaps st) = None →
  handleRenameMap answer st = None.
Proof. intros H. unfold handleRenameMap. rewrite H. reflexivity. Qed.

Section ActFacts.
Variable M : MathLib.

Lemma act_synced a st :
  synced st →
  (∀ k, a = SelectMap k → is_Some (lookupKey k (savedMaps st))) →
  ∃ st', act M a st = Some st' ∧ synced st'.
Proof.
  intros Hsy Hsel. pose proof Hsy as (Hnd & Hdef & (p & Hcur & Hm & Hs) & Hls).
  unfold act. destruct a as [ev|k|answer now|answer|confirmed]; cbn [afterHandler].
  - cbn [mbind option_bind].
    edestruct (persistEffect_synced
                 {| savedMaps := savedMaps st; currentMap := currentMap st;
                    markers := handle M (markers st) ev; shapes := shapes st;
                    localStorage_maps := localStorage_maps st |} p Hnd Hdef Hcur)
      as (st' & H1 & H2 & _).
    exists st'. split; assumption.
  - cbn [mbind option_bind]. destruct (Hsel k eq_refl) as (q & Hq).
    edestruct (persistEffect_synced (handleSelectMap k st) q Hnd Hdef Hq)
      as (st' & H1 & H2 & _).
    exists st'. split; assumption.
  - cbn [mbind option_bind]. unfold handleCreateMap.
    destruct (blankAnswer answer).
    + exists st. split; [apply persistEffect_idempotent, Hsy|exact Hsy].
    + match goal with |- context [persistEffect ?s] =>
        edestruct (persistEffect_synced s) as (st' & H1 & H2 & _) end.
      * cbn [savedMaps]. apply NoDup_setKey, Hnd.
      * cbn [savedMaps]. apply is_Some_lookupKey_setKey, Hdef.
      * cbn [savedMaps currentMap]. apply lookupKey_setKey_eq.
      * exists st'. split; assumption.
  - unfold handleRenameMap. rewrite Hcur.
    destruct (blankAnswer answer); cbn [mbind option_bind].
    + exists st. split; [apply persistEffect_idempotent, Hsy|exact Hsy].
    + match goal with |- context [persistEffect ?s] =>
        edestruct (persistEffect_synced s) as (st' & H1 & H2 & _) end.
      * cbn [savedMaps]. apply NoDup_setKey, Hnd.
      * cbn [savedMaps]. apply is_Some_lookupKey_setKey, Hdef.
      * cbn [savedMaps currentMap]. apply lookupKey_setKey_eq.
      * exists st'. split; assumption.
  - cbn [mbind option_bind]. unfold handleDeleteMap.
    destruct (String.eqb (currentMap st) "default") eqn:E; cbn [fst].
    { exists st. split; [apply persistEffect_idempotent, Hsy|exact Hsy]. }
    destruct confirmed; cbn [negb fst].
    2:{ exists st. split; [apply persistEffect_idempotent, Hsy|exact Hsy]. }
    apply String.eqb_neq in E.
    assert (is_Some (lookupKey "default" (deleteKey (currentMap st) (savedMaps st))))
      as Hdef'.
    { rewrite lookupKey_deleteKey_ne by congruence. exact Hdef. }
    destruct (firstKeyOr_present _ "default" Hdef') as (q & Hq).
    match goal with |- context [persistEffect ?s] =>
      edestruct (persistEffect_synced s q) as (st' & H1 & H2 & _) end.
    * cbn [savedMaps]. apply NoDup_deleteKey, Hnd.
    * cbn [savedMaps]. exact Hdef'.
    * cbn [savedMaps currentMap]. exact Hq.
    * exists st'. split; assumption.
Qed.

Lemma act_keeps_synced a st st' :
  synced st → act M a st = Some st' → synced st'.
Proof.
  intros Hsy Hact.
  assert (∀ k, a = SelectMap k → is_Some (lookupKey k (savedMaps st))) as Hsel.
  { intros k ->. unfold act in Hact. cbn [afterHandler mbind option_bind] in Hact.
    unfold persistEffect in Hact.
    cbn [handleSelectMap currentMap savedMaps] in Hact.
    destruct (lookupKey k (savedMaps st)) eqn:E;
      [eexists; reflexivity|discriminate]. }
  destruct (act_synced a st Hsy Hsel) as (st2 & H1 & H2). congruence.
Qed.

Lemma acts_cons a l st : acts M (a :: l) st = act M a st ≫= acts M l.
Proof.
  unfold acts. cbn [foldl mbind option_bind].
  destruct (act M a st) as [st1|]; [reflexivity|].
  cbn [mbind option_bind]. induction l as [|b l IH]; [reflexivity|exact IH].
Qed.

(** X15.  The registry stays in step with the state: when it has the
    default key and no key twice, the entry of the active key holds the
    markers and shapes of the state, and the storage holds the registry, all
    of this holds again after any sequence of interactions (clicks, imports,
    selecting, creating, renaming and deleting projects) that runs
    through. *)
Theorem acts_keep_synced l : ∀ st st',
  synced st → acts M l st = Some st' → synced st'.
Proof.
  induction l as [|a l IH]; intros st st' Hsy Hacts.
  - injection Hacts as <-. exact Hsy.
  - rewrite acts_cons in Hacts.
    destruct (act M a st) as [st1|] eqn:E; [|discriminate].
    cbn [mbind option_bind] in Hacts.
    apply (IH st1 st' (act_keeps_synced _ _ _ Hsy E) Hacts).
Qed.

(** X16.  On such a state every interaction runs through, renaming
    included, unless it selects a key that the registry does not have. *)
Theorem act_defined a st :
  synced st →
  (∀ k, a = SelectMap k → is_Some (lookupKey k (savedMaps st))) →
  is_Some (act M a st).
Proof.
  intros Hsy Hsel. destruct (act_synced a st Hsy Hsel) as (st' & H & _).
  rewrite H. eexists. reflexivity.
Qed.

(** X17.  A click or an import changes the markers of the active project
    only: the active key, the shapes, the keys of the registry and the
    entries of the other projects are as before, and the storage holds the
    new registry. *)
Theorem markers_stay_in_project ev st :
  synced st →
  ∃ st', act M (OnMarkers ev) st = Some st'
    ∧ currentMap st' = currentMap st
    ∧ markers st' = handle M (markers st) ev
    ∧ shapes st' = shapes st
    ∧ map fst (savedMaps st') = map fst (savedMaps st)
    ∧ (∀ k, k ≠ currentMap st →
         lookupKey k (savedMaps st') = lookupKey k (savedMaps st))
    ∧ localStorage_maps st' = Some (savedMaps st').
Proof.
  intros Hsy. pose proof Hsy as (Hnd & Hdef & (p & Hcur & Hm & Hs) & Hls).
  unfold act. cbn [afterHandler mbind option_bind].
  edestruct (persistEffect_synced
               {| savedMaps := savedMaps st; currentMap := currentMap st;
                  markers := handle M (markers st) ev; shapes := shapes st;
                  localStorage_maps := localStorage_maps st |} p Hnd Hdef Hcur)
    as (st' & H1 & H2 & H3 & H4 & H5 & H6).
  cbn [savedMaps currentMap markers shapes] in H3, H4, H5, H6.
  exists st'. split; [exact H1|]. split; [exact H4|]. split; [exact H5|].
  split; [exact H6|]. split; [|split].
  - rewrite H3, keys_setKey, Hcur. reflexivity.
  - intros k Hk. rewrite H3. apply lookupKey_setKey_ne. exact Hk.
  - apply H2.
Qed.

(** X18.  Selecting a project shows the markers and shapes stored for it and
    leaves the registry as it is; selecting the former project again brings
    back the former state. *)
Theorem switch_and_back k st :
  synced st →
  is_Some (lookupKey k (savedMaps st)) →
  ∃ st1, act M (SelectMap k) st = Some st1
    ∧ savedMaps st1 = savedMaps st
    ∧ Some (markers st1) = Project.markers <$> lookupKey k (savedMaps st)
    ∧ Some (shapes st1) = Project.shapes <$> lookupKey k (savedMaps st)
    ∧ act M (SelectMap (currentMap st)) st1 = Some st.
Proof.
  intros Hsy (q & Hq).
  pose proof Hsy as (Hnd & Hdef & (p & Hcur & Hm & Hs) & Hls).
  unfold act. cbn [afterHandler mbind option_bind].
  unfold persistEffect, handleSelectMap.
  cbn [savedMaps currentMap markers shapes localStorage_maps].
  rewrite Hq. cbn [fmap option_fmap option_map from_option Datatypes.id].
  rewrite project_eta, (setKey_same _ _ _ Hq).
  eexists. split; [reflexivity|].
  cbn [savedMaps currentMap markers shapes localStorage_maps].
  split; [reflexivity|]. split; [reflexivity|]. split; [reflexivity|].
  rewrite Hcur. cbn [fmap option_fmap option_map from_option Datatypes.id].
  rewrite project_eta, (setKey_same _ _ _ Hcur), Hm, Hs.
  destruct st as [sm cm ms ss ls]. cbn in *. rewrite Hls. reflexivity.
Qed.

(** X19.  Creating a project: a cancelled prompt or a blank name changes
    nothing; otherwise the new project, keyed by the time of its creation,
    becomes the active one, with the trimmed name, which is not empty, and
    without markers or shapes, whatever that key held before; the other
    projects are as before and the storage holds the new registry. *)
Theorem handleCreateMap_opens_empty_project answer now st :
  synced st →
  (blankAnswer answer = true → act M (CreateMap answer now) st = Some st)
  ∧ (blankAnswer answer = false →
     ∃ st', act M (CreateMap answer now) st = Some st'
       ∧ currentMap st' = "map_" +:+ JSNumber.toString now
       ∧ markers st' = [] ∧ shapes st' = []
       ∧ lookupKey (currentMap st') (savedMaps st')
         = Some {| Project.name := trim (default "" answer);
                   Project.markers := []; Project.shapes := [] |}
       ∧ trim (default "" answer) ≠ ""
       ∧ (∀ k, k ≠ currentMap st' →
            lookupKey k (savedMaps st') = lookupKey k (savedMaps st))
       ∧ localStorage_maps st' = Some (savedMaps st')).
Proof.
  intros Hsy. unfold act. cbn [afterHandler mbind option_bind].
  unfold handleCreateMap. split; intros Hb; rewrite Hb.
  - apply persistEffect_idempotent, Hsy.
  - unfold persistEffect. cbn [savedMaps currentMap markers shapes].
    rewrite lookupKey_setKey_eq. cbn [Project.name].
    eexists. split; [reflexivity|].
    cbn [savedMaps currentMap markers shapes localStorage_maps].
    split; [reflexivity|]. split; [reflexivity|]. split; [reflexivity|].
    split; [apply lookupKey_setKey_eq|].
    split; [apply blankAnswer_false, Hb|]. split; [|reflexivity].
    intros k Hk. rewrite !lookupKey_setKey_ne by exact Hk. reflexivity.
Qed.

(** X20.  Renaming: a cancelled prompt or a blank name changes nothing;
    otherwise the entry of the active project takes the trimmed name and
    keeps its markers and shapes, the keys of the registry and the other
    entries are as before, so are the active key and the markers and shapes
    of the state, and the storage holds the new registry. *)
Theorem handleRenameMap_renames_active answer st :
  synced st →
  (blankAnswer answer = true → act M (RenameMap answer) st = Some st)
  ∧ (blankAnswer answer = false →
     ∃ st' p, act M (RenameMap answer) st = Some st'
       ∧ lookupKey (currentMap st) (savedMaps st) = Some p
       ∧ lookupKey (currentMap st) (savedMaps st')
         = Some {| Project.name := trim (default "" answer);
                   Project.markers := Project.markers p;
                   Project.shapes := Project.shapes p |}
       ∧ (∀ k, k ≠ currentMap st →
            lookupKey k (savedMaps st') = lookupKey k (savedMaps st))
       ∧ map fst (savedMaps st') = map fst (savedMaps st)
       ∧ currentMap st' = currentMap st
       ∧ markers st' = markers st ∧ shapes st' = shapes st
       ∧ localStorage_maps st' = Some (savedMaps st')).
Proof.
  intros Hsy. pose proof Hsy as (Hnd & Hdef & (p & Hcur & Hm & Hs) & Hls).
  unfold act. cbn [afterHandler]. unfold handleRenameMap. rewrite Hcur.
  split; intros Hb; rewrite Hb; cbn [mbind option_bind].
  - apply persistEffect_idempotent, Hsy.
  - unfold persistEffect. cbn [savedMaps currentMap markers shapes].
    rewrite lookupKey_setKey_eq. cbn [Project.name].
    eexists. exists p. split; [reflexivity|].
    cbn [savedMaps currentMap markers shapes localStorage_maps].
    split; [reflexivity|].
    split; [rewrite lookupKey_setKey_eq, Hm, Hs; reflexivity|].
    split.
    { intros k Hk. rewrite !lookupKey_setKey_ne by exact Hk. reflexivity. }
    split.
    { rewrite keys_setKey, lookupKey_setKey_eq, keys_setKey, Hcur. reflexivity. }
    repeat split.
Qed.

End ActFacts.

(** X21.  Opening the page empties the default project: the state starts
    without markers and shapes on the default key, and the first effect
    writes that to the entry of the default project, in the registry and in
    the storage, whatever markers and shapes the storage held for it; its
    name and the other projects are as stored. *)
Theorem mount_empties_default registry p :
  NoDup (map fst registry) →
  lookupKey "default" registry = Some p →
  ∃ st, mount (Some registry) = Some st
    ∧ synced st
    ∧ currentMap st = "default" ∧ markers st = [] ∧ shapes st = []
    ∧ lookupKey "default" (savedMaps st)
      = Some {| Project.name := Project.name p; Project.markers := [];
                Project.shapes := [] |}
    ∧ (∀ k, k ≠ "default" →
         lookupKey k (savedMaps st) = lookupKey k registry)
    ∧ localStorage_maps st = Some (savedMaps st).
Proof.
  intros Hnd Hp. unfold mount.
  destruct (persistEffect_synced (initialState (Some registry)) p)
    as (st & H1 & H2 & H3 & H4 & H5 & H6).
  - exact Hnd.
  - cbn [initialState savedMaps from_option Datatypes.id]. rewrite Hp.
    eexists. reflexivity.
  - exact Hp.
  - cbn [initialState savedMaps currentMap markers shapes from_option Datatypes.id]
      in H3, H4, H5, H6.
    exists st. split; [exact H1|]. split; [exact H2|]. split; [exact H4|].
    split; [exact H5|]. split; [exact H6|]. split; [|split].
    + rewrite H3. apply lookupKey_setKey_eq.
    + intros k Hk. rewrite H3. apply lookupKey_setKey_ne. exact Hk.
    + apply H2.
Qed.

(** Without stored projects the page opens on an empty default project. *)
Example mount_fresh :
  mount None
  = Some {| savedMaps := [("default", {| Project.name := "Default Map";
                                         Project.markers := [];
                                         Project.shapes := [] |})];
            currentMap := "default"; markers := []; shapes := [];
            localStorage_maps :=
              Some [("default", {| Project.name := "Default Map";
                                   Project.markers := [];
                                   Project.shapes := [] |})] |}.
Proof. reflexivity. Qed.

Lemma synced_onSurvey : synced Sample.onSurvey.
Proof.
  unfold synced. split; [apply (bool_decide_unpack _); vm_compute; reflexivity|].
  split; [eexists; reflexivity|]. split; [|reflexivity].
  eexists. split; [reflexivity|]. split; reflexivity.
Qed.

Lemma acts_keep_synced_witness :
  ∃ st', acts RefMath.lib
           [ OnMarkers (MapClick 3 4 1700000001000);
             SelectMap "default";
             CreateMap (Some " Trip ") 1700000002000;
             RenameMap (Some "Tour");
             DeleteMap true ]
           Sample.onSurvey = Some st'
    ∧ synced st'.
Proof.
  eexists. split; [vm_compute; reflexivity|].
  eapply (acts_keep_synced RefMath.lib
            [ OnMarkers (MapClick 3 4 1700000001000);
              SelectMap "default";
              CreateMap (Some " Trip ") 1700000002000;
              RenameMap (Some "Tour");
              DeleteMap true ]
            Sample.onSurvey).
  - exact synced_onSurvey.
  - vm_compute. reflexivity.
Defined.

Lemma act_defined_witness :
  is_Some (act RefMath.lib (SelectMap "default") Sample.onSurvey).
Proof.
  apply (act_defined RefMath.lib).
  - exact synced_onSurvey.
  - intros k [= <-]. eexists. reflexivity.
Defined.

Lemma markers_stay_in_project_witness :
  ∃ st', act RefMath.lib (OnMarkers (MapClick 3 4 1700000001000)) Sample.onSurvey
         = Some st'
    ∧ currentMap st' = "map_1700000000000"
    ∧ markers st' = handle RefMath.lib [Sample.cafe] (MapClick 3 4 1700000001000)
    ∧ shapes st' = [GeoJSON "{}"]
    ∧ map fst (savedMaps st') = ["default"; "map_1700000000000"]
    ∧ (∀ k, k ≠ "map_1700000000000" →
         lookupKey k (savedMaps st') = lookupKey k Sample.registry)
    ∧ localStorage_maps st' = Some (savedMaps st').
Proof.
  exact (markers_stay_in_project RefMath.lib (MapClick 3 4 1700000001000)
           Sample.onSurvey synced_onSurvey).
Defined.

Lemma switch_and_back_witness :
  ∃ st1, act RefMath.lib (SelectMap "default") Sample.onSurvey = Some st1
    ∧ savedMaps st1 = Sample.registry
    ∧ Some (markers st1) = Some [Sample.clicked]
    ∧ Some (shapes st1) = Some []
    ∧ act RefMath.lib (SelectMap "map_1700000000000") st1 = Some Sample.onSurvey.
Proof.
  apply (switch_and_back RefMath.lib "default" Sample.onSurvey synced_onSurvey).
  eexists. reflexivity.
Defined.

Lemma handleCreateMap_opens_empty_project_witness :
  ∃ st', act RefMath.lib (CreateMap (Some " Trip ") 1700000002000) Sample.onSurvey
         = Some st'
    ∧ currentMap st' = "map_1700000002000"
    ∧ markers st' = [] ∧ shapes st' = []
    ∧ lookupKey (currentMap st') (savedMaps st')
      = Some {| Project.name := "Trip"; Project.markers := [];
                Project.shapes := [] |}
    ∧ "Trip" ≠ ""
    ∧ (∀ k, k ≠ currentMap st' →
         lookupKey k (savedMaps st') = lookupKey k Sample.registry)
    ∧ localStorage_maps st' = Some (savedMaps st').
Proof.
  apply (handleCreateMap_opens_empty_project RefMath.lib (Some " Trip ")
           1700000002000 Sample.onSurvey synced_onSurvey).
  reflexivity.
Defined.

Lemma handleRenameMap_renames_active_witness :
  ∃ st' p, act RefMath.lib (RenameMap (Some " Tour ")) Sample.onSurvey = Some st'
    ∧ lookupKey "map_1700000000000" Sample.registry = Some p
    ∧ lookupKey "map_1700000000000" (savedMaps st')
      = Some {| Project.name := "Tour"; Project.markers := Project.markers p;
                Project.shapes := Project.shapes p |}
    ∧ (∀ k, k ≠ "map_1700000000000" →
         lookupKey k (savedMaps st') = lookupKey k Sample.registry)
    ∧ map fst (savedMaps st') = ["default"; "map_1700000000000"]
    ∧ currentMap st' = "map_1700000000000"
    ∧ markers st' = [Sample.cafe] ∧ shapes st' = [GeoJSON "{}"]
    ∧ localStorage_maps st' = Some (savedMaps st').
Proof.
  apply (handleRenameMap_renames_active RefMath.lib (Some " Tour ")
           Sample.onSurvey synced_onSurvey).
  reflexivity.
Defined.

Lemma mount_empties_default_witness :
  ∃ st, mount (Some Sample.registry) = Some st
    ∧ synced st
    ∧ currentMap st = "default" ∧ markers st = [] ∧ shapes st = []
    ∧ lookupKey "default" (savedMaps st)
      = Some {| Project.name := "Default Map"; Project.markers := [];
                Project.shapes := [] |}
    ∧ (∀ k, k ≠ "default" →
         lookupKey k (savedMaps st) = lookupKey k Sample.registry)
    ∧ localStorage_maps st = Some (savedMaps st).
Proof.
  apply (mount_empties_default Sample.registry
           {| Project.name := "Default Map"; Project.markers := [Sample.clicked];
              Project.shapes := [] |}).
  - apply (bool_decide_unpack _). vm_compute. reflexivity.
  - reflexivity.
Defined.
